(** * The cache-aside decorator of [main.py]

    A shallow embedding of [cache_response] and of the endpoint it decorates,
    [get_user_details], together with the parts of the Python run time the
    decorator leans on: truthiness, [str()] as used by f-strings, and the
    [json] module's [dumps] and [loads].

    Python [str] values are modelled as Rocq strings, every character standing
    for the code point of the same number (U+0000 to U+00FF).  Python [int] is
    [Z]; the interpreter's limits on the length of decimal conversions and on
    the depth of recursion are not modelled.  Floats are left out: a
    computation that would build one, or a character above U+00FF, ends in
    the outcome [Unmodelled]. *)

From Stdlib Require Import ZArith Lia Ascii String List Decimal DecimalFacts DecimalN DecimalZ.
From stdpp Require Import base strings list gmap.

(** ** Characters and decimal numerals *)

Definition dquote : ascii := "034"%char.
Definition bslash : ascii := "\"%char.

Definition chars (s : string) : list ascii := list_ascii_of_string s.
Definition text (cs : list ascii) : string := string_of_list_ascii cs.

Fixpoint uint_chars (d : Decimal.uint) : list ascii :=
  match d with
  | Decimal.Nil => []
  | Decimal.D0 d => "0"%char :: uint_chars d
  | Decimal.D1 d => "1"%char :: uint_chars d
  | Decimal.D2 d => "2"%char :: uint_chars d
  | Decimal.D3 d => "3"%char :: uint_chars d
  | Decimal.D4 d => "4"%char :: uint_chars d
  | Decimal.D5 d => "5"%char :: uint_chars d
  | Decimal.D6 d => "6"%char :: uint_chars d
  | Decimal.D7 d => "7"%char :: uint_chars d
  | Decimal.D8 d => "8"%char :: uint_chars d
  | Decimal.D9 d => "9"%char :: uint_chars d
  end.

(** [int.__repr__]: the decimal numeral, with a leading minus sign for
    negative numbers. *)
Definition int_chars (n : Z) : list ascii :=
  match Z.to_int n with
  | Decimal.Pos d => uint_chars d
  | Decimal.Neg d => "-"%char :: uint_chars d
  end.

Definition is_digit (c : ascii) : bool :=
  let n := N_of_ascii c in ((48 <=? n) && (n <=? 57))%N.

(** The numeral read off a run of decimal digits; [is_digit] holds of every
    character it is applied to. *)
Fixpoint chars_uint (cs : list ascii) : Decimal.uint :=
  match cs with
  | [] => Decimal.Nil
  | c :: cs' =>
      let d := chars_uint cs' in
      match N_of_ascii c with
      | 48%N => Decimal.D0 d
      | 49%N => Decimal.D1 d
      | 50%N => Decimal.D2 d
      | 51%N => Decimal.D3 d
      | 52%N => Decimal.D4 d
      | 53%N => Decimal.D5 d
      | 54%N => Decimal.D6 d
      | 55%N => Decimal.D7 d
      | 56%N => Decimal.D8 d
      | _ => Decimal.D9 d
      end
  end.

Definition hex_digit (n : N) : ascii :=
  if (n <? 10)%N then ascii_of_N (48 + n) else ascii_of_N (87 + n).

(** Two lower-case hexadecimal digits, as printed by [%02x]. *)
Definition hex2 (c : ascii) : list ascii :=
  let n := N_of_ascii c in [hex_digit (n / 16); hex_digit (n mod 16)].

(** ** Python values *)

Unset Elimination Schemes.
Inductive pyval : Type :=
| PNone
| PBool (b : bool)
| PInt (n : Z)
| PStr (s : string)
| PBytes (b : string)
| PList (items : list pyval)
| PDict (items : list (pyval * pyval)).
Set Elimination Schemes.

(** [bool(v)], the test behind [if v:], [not v] and [v or w]. *)
Definition py_truthy (v : pyval) : bool :=
  match v with
  | PNone => false
  | PBool b => b
  | PInt n => negb (n =? 0)%Z
  | PStr s => negb (String.eqb s "")
  | PBytes b => negb (String.eqb b "")
  | PList items => match items with [] => false | _ => true end
  | PDict items => match items with [] => false | _ => true end
  end.

(** [a or b] on values. *)
Definition py_or (a b : pyval) : pyval := if py_truthy a then a else b.

Definition has_char (c : ascii) (cs : list ascii) : bool := existsb (Ascii.eqb c) cs.

(** [repr] of [str] and [bytes] prefers single quotes, and switches to
    double quotes when the text holds a single quote and no double quote. *)
Definition repr_quote (cs : list ascii) : ascii :=
  if has_char "'"%char cs && negb (has_char dquote cs) then dquote else "'"%char.

(** [str.isprintable] on U+0000 to U+00FF. *)
Definition printable (n : N) : bool :=
  (((32 <=? n) && (n <? 127)) || ((161 <=? n) && negb (n =? 173)))%N.

Definition repr_str_char (q c : ascii) : list ascii :=
  let n := N_of_ascii c in
  if Ascii.eqb c q || Ascii.eqb c bslash then [bslash; c]
  else if (n =? 9)%N then [bslash; "t"%char]
  else if (n =? 10)%N then [bslash; "n"%char]
  else if (n =? 13)%N then [bslash; "r"%char]
  else if printable n then [c]
  else bslash :: "x"%char :: hex2 c.

Definition repr_bytes_char (q c : ascii) : list ascii :=
  let n := N_of_ascii c in
  if Ascii.eqb c q || Ascii.eqb c bslash then [bslash; c]
  else if (n =? 9)%N then [bslash; "t"%char]
  else if (n =? 10)%N then [bslash; "n"%char]
  else if (n =? 13)%N then [bslash; "r"%char]
  else if ((n <? 32) || (127 <=? n))%N then bslash :: "x"%char :: hex2 c
  else [c].

Definition repr_str (s : string) : list ascii :=
  let cs := chars s in
  let q := repr_quote cs in
  q :: flat_map (repr_str_char q) cs ++ [q].

Definition repr_bytes (b : string) : list ascii :=
  let cs := chars b in
  let q := repr_quote cs in
  "b"%char :: q :: flat_map (repr_bytes_char q) cs ++ [q].

(** [sep.join(parts)]. *)
Definition join (sep : list ascii) (parts : list (list ascii)) : list ascii :=
  match parts with
  | [] => []
  | p :: ps => p ++ flat_map (fun q => sep ++ q) ps
  end.

Fixpoint repr_chars (v : pyval) : list ascii :=
  match v with
  | PNone => chars "None"
  | PBool true => chars "True"
  | PBool false => chars "False"
  | PInt n => int_chars n
  | PStr s => repr_str s
  | PBytes b => repr_bytes b
  | PList items =>
      "["%char :: join (chars ", ") (map repr_chars items) ++ ["]"%char]
  | PDict items =>
      "{"%char ::
      join (chars ", ")
        (map (fun kv => repr_chars (fst kv) ++ chars ": " ++ repr_chars (snd kv)) items)
      ++ ["}"%char]
  end.

Definition py_repr (v : pyval) : string := text (repr_chars v).

(** [str(v)], which is what an f-string field [{v}] puts into the text. *)
Definition py_str (v : pyval) : string :=
  match v with
  | PStr s => s
  | _ => py_repr v
  end.

(** ** Exceptions and outcomes *)

(** The exception classes that occur.  [CancelledError] derives from
    [BaseException] only, so [except Exception] lets it through. *)
Inductive exc_class : Type :=
| IndexError
| TypeError
| NameError
| ConnectionError
| TimeoutError
| ResponseError
| CancelledError.

Definition is_Exception (c : exc_class) : bool :=
  match c with
  | CancelledError => false
  | _ => true
  end.

(** A built-in or library exception: its class and [str(e)]. *)
Record pyerr : Type := PyErr { err_class : exc_class; err_str : string }.

Inductive exn : Type :=
| HTTPException (status_code : Z) (detail : string)
| PyError (e : pyerr)
| JSONDecodeError.

(** What a call of a library function that raises only built-in exceptions
    comes to. *)
Inductive result (A : Type) : Type :=
| Ok (a : A)
| Err (e : pyerr).
Arguments Ok {A} a.
Arguments Err {A} e.

(** What a call comes to in general.  [Unmodelled] marks a run that leaves
    the fragment of Python covered here. *)
Inductive outcome (A : Type) : Type :=
| Return (a : A)
| Raise (e : exn)
| Unmodelled.
Arguments Return {A} a.
Arguments Raise {A} e.
Arguments Unmodelled {A}.

Definition result_bind {A B : Type} (r : result A) (k : A -> result B) : result B :=
  match r with
  | Ok a => k a
  | Err e => Err e
  end.

(** Left-to-right traversal that stops at the first error. *)
Definition result_map {A B : Type} (f : A -> result B) : list A -> result (list B) :=
  fix go (l : list A) : result (list B) :=
    match l with
    | [] => Ok []
    | x :: l' =>
        result_bind (f x) (fun y => result_bind (go l') (fun ys => Ok (y :: ys)))
    end.

(** ** [json.dumps] *)

(** One character of [encode_basestring_ascii]. *)
Definition escape_char (c : ascii) : list ascii :=
  let n := N_of_ascii c in
  if (n =? 34)%N then [bslash; dquote]
  else if (n =? 92)%N then [bslash; bslash]
  else if (n =? 8)%N then [bslash; "b"%char]
  else if (n =? 12)%N then [bslash; "f"%char]
  else if (n =? 10)%N then [bslash; "n"%char]
  else if (n =? 13)%N then [bslash; "r"%char]
  else if (n =? 9)%N then [bslash; "t"%char]
  else if ((32 <=? n) && (n <=? 126))%N then [c]
  else bslash :: "u"%char :: "0"%char :: "0"%char :: hex2 c.

Definition encode_basestring_ascii (s : string) : list ascii :=
  dquote :: flat_map escape_char (chars s) ++ [dquote].

Definition not_serializable (cls : string) : pyerr :=
  PyErr TypeError ("Object of type " +:+ cls +:+ " is not JSON serializable").

Definition bad_key (cls : string) : pyerr :=
  PyErr TypeError ("keys must be str, int, float, bool or None, not " +:+ cls).

(** The text a dictionary key is written as; keys that are not strings are
    coerced. *)
Definition encode_key (k : pyval) : result (list ascii) :=
  match k with
  | PStr s => Ok (encode_basestring_ascii s)
  | PBool true => Ok (encode_basestring_ascii "true")
  | PBool false => Ok (encode_basestring_ascii "false")
  | PInt n => Ok (encode_basestring_ascii (text (int_chars n)))
  | PNone => Ok (encode_basestring_ascii "null")
  | PBytes _ => Err (bad_key "bytes")
  | PList _ => Err (bad_key "list")
  | PDict _ => Err (bad_key "dict")
  end.

(** One item of a dictionary: the key, a colon and a space, the value. *)
Definition encode_item (enc : pyval -> result (list ascii)) (kv : pyval * pyval)
  : result (list ascii) :=
  result_bind (encode_key (fst kv)) (fun k =>
  result_bind (enc (snd kv)) (fun v =>
  Ok (k ++ chars ": " ++ v))).

(** The encoder with its default settings: [ensure_ascii], separators
    [", "] and [": "], no indentation. *)
Fixpoint encode (o : pyval) : result (list ascii) :=
  match o with
  | PNone => Ok (chars "null")
  | PBool true => Ok (chars "true")
  | PBool false => Ok (chars "false")
  | PInt n => Ok (int_chars n)
  | PStr s => Ok (encode_basestring_ascii s)
  | PBytes _ => Err (not_serializable "bytes")
  | PList items =>
      result_bind (result_map encode items) (fun parts =>
      Ok ("["%char :: join (chars ", ") parts ++ ["]"%char]))
  | PDict items =>
      result_bind (result_map (encode_item encode) items) (fun parts =>
      Ok ("{"%char :: join (chars ", ") parts ++ ["}"%char]))
  end.

Definition json_dumps (obj : pyval) : result string :=
  result_bind (encode obj) (fun cs => Ok (text cs)).

(** ** [json.loads] *)

(** What scanning a prefix of the text comes to: a value and the text after
    it, a [JSONDecodeError], or not enough fuel.  The flag [foreign] is set
    when the text holds a float or a character above U+00FF: the text is
    scanned to its end all the same, with a stand-in for what the model
    cannot express, so that a malformed text is known as such. *)
Inductive parsed (A : Type) : Type :=
| Parsed (a : A) (foreign : bool) (rest : list ascii)
| Malformed
| Starved.
Arguments Parsed {A} a foreign rest.
Arguments Malformed {A}.
Arguments Starved {A}.

Definition parsed_bind {A B : Type} (p : parsed A) (k : A -> list ascii -> parsed B) : parsed B :=
  match p with
  | Parsed a foreign rest =>
      match k a rest with
      | Parsed b foreign' rest' => Parsed b (foreign || foreign') rest'
      | Malformed => Malformed
      | Starved => Starved
      end
  | Malformed => Malformed
  | Starved => Starved
  end.

(** Marks what was scanned as outside the model. *)
Definition foreign_part {A : Type} (p : parsed A) : parsed A :=
  match p with
  | Parsed a _ rest => Parsed a true rest
  | Malformed => Malformed
  | Starved => Starved
  end.

Definition is_ws (c : ascii) : bool :=
  let n := N_of_ascii c in ((n =? 32) || (n =? 9) || (n =? 10) || (n =? 13))%N.

Fixpoint skip_ws (s : list ascii) : list ascii :=
  match s with
  | c :: s' => if is_ws c then skip_ws s' else s
  | [] => []
  end.

Definition hex_value (c : ascii) : option N :=
  let n := N_of_ascii c in
  if ((48 <=? n) && (n <=? 57))%N then Some (n - 48)%N
  else if ((97 <=? n) && (n <=? 102))%N then Some (n - 87)%N
  else if ((65 <=? n) && (n <=? 70))%N then Some (n - 55)%N
  else None.

(** The code point of a [\uXXXX] escape. *)
Definition hex4 (a b c d : ascii) : option N :=
  match hex_value a, hex_value b, hex_value c, hex_value d with
  | Some x, Some y, Some z, Some w => Some (((x * 16 + y) * 16 + z) * 16 + w)%N
  | _, _, _, _ => None
  end.

(** The table [BACKSLASH] of the decoder. *)
Definition unescape (c : ascii) : option ascii :=
  let n := N_of_ascii c in
  if (n =? 34)%N then Some dquote
  else if (n =? 92)%N then Some bslash
  else if (n =? 47)%N then Some "/"%char
  else if (n =? 98)%N then Some (ascii_of_N 8)
  else if (n =? 102)%N then Some (ascii_of_N 12)
  else if (n =? 110)%N then Some (ascii_of_N 10)
  else if (n =? 114)%N then Some (ascii_of_N 13)
  else if (n =? 116)%N then Some (ascii_of_N 9)
  else None.

Definition parsed_cons (c : ascii) (p : parsed string) : parsed string :=
  parsed_bind p (fun s rest => Parsed (String c s) false rest).

(** [scanstring] in strict mode, started after the opening quote. *)
Fixpoint scanstring (s : list ascii) : parsed string :=
  match s with
  | [] => Malformed
  | c :: r =>
      let n := N_of_ascii c in
      if (n =? 34)%N then Parsed EmptyString false r
      else if (n =? 92)%N then
        match r with
        | [] => Malformed
        | e :: r1 =>
            if (N_of_ascii e =? 117)%N then
              match r1 with
              | h1 :: h2 :: h3 :: h4 :: r2 =>
                  match hex4 h1 h2 h3 h4 with
                  | Some cp =>
                      if (cp <? 256)%N then parsed_cons (ascii_of_N cp) (scanstring r2)
                      else foreign_part (parsed_cons "?"%char (scanstring r2))
                  | None => Malformed
                  end
              | _ => Malformed
              end
            else
              match unescape e with
              | Some ch => parsed_cons ch (scanstring r1)
              | None => Malformed
              end
        end
      else if (n <? 32)%N then Malformed
      else parsed_cons c (scanstring r)
  end.

Fixpoint span_digits (s : list ascii) : list ascii * list ascii :=
  match s with
  | c :: s' =>
      if is_digit c then let '(ds, rest) := span_digits s' in (c :: ds, rest)
      else ([], s)
  | [] => ([], [])
  end.

(** The fraction of [NUMBER_RE], a dot and one digit or more: the text after
    it, when there is one. *)
Definition frac_part (s : list ascii) : option (list ascii) :=
  match s with
  | c :: d :: s' =>
      if (N_of_ascii c =? 46)%N && is_digit d then Some (snd (span_digits s')) else None
  | _ => None
  end.

(** The exponent of [NUMBER_RE], e or E, an optional sign, and one digit or
    more: the text after it, when there is one. *)
Definition exp_part (s : list ascii) : option (list ascii) :=
  match s with
  | c :: d :: s' =>
      if ((N_of_ascii c =? 101) || (N_of_ascii c =? 69))%N then
        if is_digit d then Some (snd (span_digits s'))
        else if ((N_of_ascii d =? 43) || (N_of_ascii d =? 45))%N then
          match s' with
          | x :: s'' => if is_digit x then Some (snd (span_digits s'')) else None
          | [] => None
          end
        else None
      else None
  | _ => None
  end.

(** The integer part found by [NUMBER_RE], a single zero or a digit from 1
    to 9 followed by any digits: its digits and the text after them. *)
Definition int_part (s : list ascii) : option (list ascii * list ascii) :=
  match s with
  | c :: s' =>
      if (N_of_ascii c =? 48)%N then Some ([c], s')
      else if is_digit c then let '(ds, rest) := span_digits s' in Some (c :: ds, rest)
      else None
  | [] => None
  end.

Definition digits_value (ds : list ascii) : Z := Z.of_N (N.of_uint (chars_uint ds)).

(** What stands in for a float. *)
Definition a_float : pyval := PNone.

(** [match_number] followed by the conversion: after an optional minus
    sign, [int] of the integer part when neither fraction nor exponent
    follows, a float otherwise. *)
Definition match_number (s : list ascii) : parsed pyval :=
  let '(negative, body) :=
    match s with
    | c :: s' => if (N_of_ascii c =? 45)%N then (true, s') else (false, s)
    | [] => (false, s)
    end in
  match int_part body with
  | Some (ds, rest) =>
      match frac_part rest with
      | Some rest1 => Parsed a_float true (default rest1 (exp_part rest1))
      | None =>
          match exp_part rest with
          | Some rest2 => Parsed a_float true rest2
          | None =>
              Parsed (PInt (if negative then - digits_value ds else digits_value ds)) false rest
          end
      end
  | None => Malformed
  end.

Fixpoint starts_with (p s : list ascii) : option (list ascii) :=
  match p, s with
  | [], _ => Some s
  | a :: p', b :: s' => if Ascii.eqb a b then starts_with p' s' else None
  | _ :: _, [] => None
  end.

(** [d[key] = value] on a dictionary with string keys, kept in insertion
    order. *)
Fixpoint dict_setitem (d : list (string * pyval)) (key : string) (value : pyval)
  : list (string * pyval) :=
  match d with
  | [] => [(key, value)]
  | (k, v) :: d' =>
      if String.eqb k key then (k, value) :: d'
      else (k, v) :: dict_setitem d' key value
  end.

(** [dict(pairs)]. *)
Definition dict_of_pairs (pairs : list (string * pyval)) : list (pyval * pyval) :=
  map (fun kv => (PStr (fst kv), snd kv))
      (fold_left (fun d kv => dict_setitem d (fst kv) (snd kv)) pairs []).

(** [scan_once] with [JSONArray] and [JSONObject]: [array_items] and
    [object_items] are the two loops, entered at an element and at the key
    that follows an opening quote. *)
Fixpoint scan_once (fuel : nat) (s : list ascii) {struct fuel} : parsed pyval :=
  match fuel with
  | O => Starved
  | S fuel' =>
      match s with
      | [] => Malformed
      | c :: s' =>
          let n := N_of_ascii c in
          if (n =? 34)%N then
            parsed_bind (scanstring s') (fun k rest => Parsed (PStr k) false rest)
          else if (n =? 123)%N then
            match skip_ws s' with
            | x :: s'' =>
                if (N_of_ascii x =? 125)%N then Parsed (PDict []) false s''
                else if (N_of_ascii x =? 34)%N then
                  parsed_bind (object_items fuel' s'') (fun pairs rest =>
                  Parsed (PDict (dict_of_pairs pairs)) false rest)
                else Malformed
            | [] => Malformed
            end
          else if (n =? 91)%N then
            match skip_ws s' with
            | x :: s'' =>
                if (N_of_ascii x =? 93)%N then Parsed (PList []) false s''
                else parsed_bind (array_items fuel' (x :: s'')) (fun items rest =>
                     Parsed (PList items) false rest)
            | [] => Malformed
            end
          else
            match starts_with (chars "null") s, starts_with (chars "true") s,
                  starts_with (chars "false") s with
            | Some rest, _, _ => Parsed PNone false rest
            | _, Some rest, _ => Parsed (PBool true) false rest
            | _, _, Some rest => Parsed (PBool false) false rest
            | None, None, None =>
                match match_number s with
                | Malformed =>
                    match starts_with (chars "NaN") s, starts_with (chars "Infinity") s,
                          starts_with (chars "-Infinity") s with
                    | Some rest, _, _ => Parsed a_float true rest
                    | _, Some rest, _ => Parsed a_float true rest
                    | _, _, Some rest => Parsed a_float true rest
                    | None, None, None => Malformed
                    end
                | p => p
                end
            end
      end
  end

with array_items (fuel : nat) (s : list ascii) {struct fuel} : parsed (list pyval) :=
  match fuel with
  | O => Starved
  | S fuel' =>
      parsed_bind (scan_once fuel' s) (fun value rest =>
      match skip_ws rest with
      | x :: rest' =>
          if (N_of_ascii x =? 93)%N then Parsed [value] false rest'
          else if (N_of_ascii x =? 44)%N then
            parsed_bind (array_items fuel' (skip_ws rest')) (fun values rest'' =>
            Parsed (value :: values) false rest'')
          else Malformed
      | [] => Malformed
      end)
  end

with object_items (fuel : nat) (s : list ascii) {struct fuel} : parsed (list (string * pyval)) :=
  match fuel with
  | O => Starved
  | S fuel' =>
      parsed_bind (scanstring s) (fun key rest =>
      match skip_ws rest with
      | x :: rest1 =>
          if (N_of_ascii x =? 58)%N then
            parsed_bind (scan_once fuel' (skip_ws rest1)) (fun value rest2 =>
            match skip_ws rest2 with
            | y :: rest3 =>
                if (N_of_ascii y =? 125)%N then Parsed [(key, value)] false rest3
                else if (N_of_ascii y =? 44)%N then
                  match skip_ws rest3 with
                  | z :: rest4 =>
                      if (N_of_ascii z =? 34)%N then
                        parsed_bind (object_items fuel' rest4) (fun pairs rest5 =>
                        Parsed ((key, value) :: pairs) false rest5)
                      else Malformed
                  | [] => Malformed
                  end
                else Malformed
            | [] => Malformed
            end)
          else Malformed
      | [] => Malformed
      end)
  end.

(** [JSONDecoder.decode]: leading white space, one value, trailing white
    space, and nothing else. *)
Definition decode (fuel : nat) (s : list ascii) : parsed pyval :=
  parsed_bind (scan_once fuel (skip_ws s)) (fun obj rest =>
  match skip_ws rest with
  | [] => Parsed obj false []
  | _ :: _ => Malformed
  end).

(** Fuel that no text can use up: every call of [scan_once] and every round
    of a loop consumes a character. *)
Definition fuel_for (s : list ascii) : nat := S (2 * length s).

(** [type(v).__name__]. *)
Definition type_name (v : pyval) : string :=
  match v with
  | PNone => "NoneType"
  | PBool _ => "bool"
  | PInt _ => "int"
  | PStr _ => "str"
  | PBytes _ => "bytes"
  | PList _ => "list"
  | PDict _ => "dict"
  end.

(** Bytes from 0x01 to 0x7F only: no byte order mark, no zero byte, so the
    encoding [json.loads] detects is UTF-8, and decoding changes nothing. *)
Definition plain_ascii (b : string) : bool :=
  forallb (fun c => let n := N_of_ascii c in ((1 <=? n) && (n <=? 127))%N) (chars b).

(** [JSONDecoder.decode] on a text. *)
Definition loads_text (s : string) : outcome pyval :=
  match decode (fuel_for (chars s)) (chars s) with
  | Parsed obj false _ => Return obj
  | Parsed _ true _ => Unmodelled
  | Malformed => Raise JSONDecodeError
  | Starved => Unmodelled
  end.

(** [json.loads(s)]: a [str] is decoded as it is, [bytes] after conversion
    to text (modelled for plain ASCII), and anything else is refused. *)
Definition json_loads (s : pyval) : outcome pyval :=
  match s with
  | PStr text => loads_text text
  | PBytes b => if plain_ascii b then loads_text b else Unmodelled
  | _ =>
      Raise (PyError (PyErr TypeError
        ("the JSON object must be str, bytes or bytearray, not " +:+ type_name s)))
  end.

(** ** Calls, events and the cache adapter *)

(** [d.get(key)] on keyword arguments. *)
Fixpoint dict_get (d : list (string * pyval)) (key : string) : option pyval :=
  match d with
  | [] => None
  | (k, v) :: d' => if String.eqb k key then Some v else dict_get d' key
  end.

(** What any function may do to the outside: write a line, let time pass. *)
Inductive io : Type :=
| Print (line : string)
| Sleep (seconds : Z).

(** What a run of the decorator does, in the order it happens: its two
    requests to the cache, its call of the wrapped function, and the output
    of either. *)
Inductive event : Type :=
| CacheGet (key : string)
| CacheSet (key value : string) (ttl : Z)
| Invoke (args : list pyval) (kwargs : list (string * pyval))
| Out (e : io).

(** The cache object the decorator talks to: [get] answers with the stored
    value, or with [None] when there is none; [set] stores a text for [ttl]
    seconds.  Either may raise. *)
Record Cache (Store : Type) : Type := {
  cache_get : string -> Store -> result pyval;
  cache_set : string -> string -> Z -> Store -> result unit * Store
}.
Arguments cache_get {Store} _ _ _.
Arguments cache_set {Store} _ _ _ _ _.

(** An asynchronous function as the decorator sees it: called with positional
    and keyword arguments, it returns or raises, and may change its own
    resources [Env] and act on the outside. *)
Definition producer (Env : Type) : Type :=
  list pyval -> list (string * pyval) -> Env -> outcome pyval * Env * list io.

(** [kwargs.get('user_id') or args[0]]. *)
Definition key_identifier (args : list pyval) (kwargs : list (string * pyval)) : outcome pyval :=
  let named := default PNone (dict_get kwargs "user_id") in
  if py_truthy named then Return named
  else match args with
       | a :: _ => Return a
       | [] => Raise (PyError (PyErr IndexError "tuple index out of range"))
       end.

(** [f"{namespace}:user:{user_id}"]. *)
Definition cache_key_of (namespace : string) (user_id : pyval) : string :=
  namespace +:+ ":user:" +:+ py_str user_id.

Definition http_500 (e : pyerr) : exn :=
  HTTPException 500 ("Error caching data: " +:+ err_str e).

Section Decorator.
Context {Store Env : Type}.

(** [Cache.REDIS(endpoint="localhost", port=6379, namespace=namespace)]. *)
Variable REDIS : string -> Cache Store.

(** Computations of the decorator: they read and change the store and the
    producer's resources, and leave a trace. *)
Definition M (A : Type) : Type :=
  Store * Env -> outcome A * (Store * Env) * list event.

Definition ret {A : Type} (a : A) : M A := fun w => (Return a, w, []).

Definition finish {A : Type} (o : outcome A) : M A := fun w => (o, w, []).

Definition bind {A B : Type} (m : M A) (k : A -> M B) : M B :=
  fun w =>
    match m w with
    | (Return a, w', t) => let '(o, w'', t') := k a w' in (o, w'', t ++ t')
    | (Raise e, w', t) => (Raise e, w', t)
    | (Unmodelled, w', t) => (Unmodelled, w', t)
    end.

Definition print (line : string) : M unit := fun w => (Return tt, w, [Out (Print line)]).

(** [await cache.get(key)]. *)
Definition await_get (cache : Cache Store) (key : string) : M pyval :=
  fun w =>
    match cache_get cache key (fst w) with
    | Ok v => (Return v, w, [CacheGet key])
    | Err e => (Raise (PyError e), w, [CacheGet key])
    end.

(** [await func] applied to the arguments the wrapper was called with. *)
Definition await_call (func : producer Env) (args : list pyval)
    (kwargs : list (string * pyval)) : M pyval :=
  fun w =>
    let '(o, env', t) := func args kwargs (snd w) in
    (o, (fst w, env'), Invoke args kwargs :: map Out t).

(** The body of the [try] statement: serialize, store, report.  It hands
    back the exception it ends with, if any, for the [except] clause. *)
Definition try_body (cache : Cache Store) (cache_key : string) (response : pyval)
    (ttl : Z) : M (result unit) :=
  fun w =>
    match json_dumps response with
    | Err e => (Return (Err e), w, [])
    | Ok payload =>
        match cache_set cache cache_key payload ttl (fst w) with
        | (Err e, store') => (Return (Err e), (store', snd w), [CacheSet cache_key payload ttl])
        | (Ok _, store') =>
            (Return (Ok tt), (store', snd w),
             [CacheSet cache_key payload ttl;
              Out (Print ("Data for key " +:+ cache_key +:+ " stored in cache with TTL "
                          +:+ text (int_chars ttl) +:+ "s."))])
        end
    end.

#[local] Instance M_bind : MBind M := fun A B k m => bind m k.

Definition wrapper (ttl : Z) (namespace : string) (func : producer Env)
    (args : list pyval) (kwargs : list (string * pyval)) : M pyval :=
  user_id ← finish (key_identifier args kwargs);
  let cache_key := cache_key_of namespace user_id in
  let cache := REDIS namespace in
  cached_value ← await_get cache cache_key;
  if py_truthy cached_value then
    print ("Cache HIT for key: " +:+ cache_key);;
    finish (json_loads cached_value)
  else
    print ("Cache MISS for key: " +:+ cache_key +:+ ". Fetching from original source...");;
    response ← await_call func args kwargs;
    written ← try_body cache cache_key response ttl;
    match written with
    | Err e =>
        if is_Exception (err_class e) then finish (Raise (http_500 e))
        else finish (Raise (PyError e))
    | Ok _ => ret response
    end.

(** [cache_response(ttl=60, namespace="main")] applied to [func]. *)
Definition cache_response (ttl : option Z) (namespace : option string)
    (func : producer Env) : list pyval -> list (string * pyval) -> M pyval :=
  wrapper (default 60%Z ttl) (default "main" namespace) func.

End Decorator.

(** ** A Redis-like store behind the adapter

    The store the examples run against: keys with a value and the instant
    they expire at, a clock, and switches that make reads or writes fail the
    way an unreachable server does. *)
Module Redis.

Record server : Type := {
  clock : Z;
  keyspace : gmap string (string * Z);
  read_fault : option pyerr;
  write_fault : option pyerr
}.

Definition empty : server :=
  {| clock := 0; keyspace := ∅; read_fault := None; write_fault := None |}.

(** [GET key]: the value, as text, unless the key is absent or has
    expired; the client turns the absent value into [None]. *)
Definition GET (key : string) (srv : server) : pyval :=
  match keyspace srv !! key with
  | Some (value, expiry) => if (clock srv <? expiry)%Z then PStr value else PNone
  | None => PNone
  end.

(** [SETEX key seconds value]; the server rejects a time to live that is
    not positive. *)
Definition SETEX (key : string) (seconds : Z) (value : string) (srv : server)
  : result unit * server :=
  if (seconds <=? 0)%Z then
    (Err (PyErr ResponseError "invalid expire time in 'setex' command"), srv)
  else
    (Ok tt,
     {| clock := clock srv;
        keyspace := <[key := (value, (clock srv + seconds)%Z)]> (keyspace srv);
        read_fault := read_fault srv;
        write_fault := write_fault srv |}).

(** The client prefixes every key with the namespace it was built with. *)
Definition build_key (namespace key : string) : string :=
  if String.eqb namespace "" then key else namespace +:+ ":" +:+ key.

Definition REDIS (namespace : string) : Cache server := {|
  cache_get key srv :=
    match read_fault srv with
    | Some e => Err e
    | None => Ok (GET (build_key namespace key) srv)
    end;
  cache_set key value ttl srv :=
    match write_fault srv with
    | Some e => (Err e, srv)
    | None => SETEX (build_key namespace key) ttl value srv
    end
|}.

(** Time passing between two calls. *)
Definition elapse (seconds : Z) (srv : server) : server :=
  {| clock := (clock srv + seconds)%Z;
     keyspace := keyspace srv;
     read_fault := read_fault srv;
     write_fault := write_fault srv |}.

(** What the client raises when nothing listens on the port. *)
Definition connection_refused : pyerr :=
  PyErr ConnectionError "Error 111 connecting to localhost:6379. Connection refused.".

Definition outage_on_write (srv : server) : server :=
  {| clock := clock srv;
     keyspace := keyspace srv;
     read_fault := read_fault srv;
     write_fault := Some connection_refused |}.

End Redis.

(** ** The application *)

(** [a == b] between values that can be dictionary keys: [bool] is a kind of
    [int], so [True == 1]. *)
Definition key_eqb (a b : pyval) : bool :=
  match a, b with
  | PNone, PNone => true
  | PBool x, PBool y => Bool.eqb x y
  | PBool x, PInt n | PInt n, PBool x => (Z.b2z x =? n)%Z
  | PInt n, PInt m => (n =? m)%Z
  | PStr s, PStr t => String.eqb s t
  | PBytes s, PBytes t => String.eqb s t
  | _, _ => false
  end.

(** [d.get(key)] on a dictionary: lists and dictionaries cannot be hashed. *)
Definition py_dict_get (d : list (pyval * pyval)) (key : pyval) : result (option pyval) :=
  match key with
  | PList _ => Err (PyErr TypeError "unhashable type: 'list'")
  | PDict _ => Err (PyErr TypeError "unhashable type: 'dict'")
  | _ => Ok (snd <$> find (fun kv => key_eqb (fst kv) key) d)
  end.

Definition user (id : Z) (name email : string) (age : Z) : pyval :=
  PDict [(PStr "id", PInt id); (PStr "name", PStr name);
         (PStr "email", PStr email); (PStr "age", PInt age)].

Definition users_db : list (pyval * pyval) :=
  [(PInt 1, user 1 "Alice" "alice@example.com" 25);
   (PInt 2, user 2 "Bob" "bob@example.com" 30);
   (PInt 3, user 3 "Charlie" "charlie@example.com" 22)].

(** Binding the call's arguments to the one parameter [user_id]: keywords
    first, in call order, then the count of positional arguments. *)
Fixpoint bind_keywords (positional : option pyval) (kwargs : list (string * pyval))
  : result (option pyval) :=
  match kwargs with
  | [] => Ok positional
  | (k, v) :: kwargs' =>
      if String.eqb k "user_id" then
        match positional with
        | Some _ =>
            Err (PyErr TypeError "get_user_details() got multiple values for argument 'user_id'")
        | None => bind_keywords (Some v) kwargs'
        end
      else
        Err (PyErr TypeError
               ("get_user_details() got an unexpected keyword argument '" +:+ k +:+ "'"))
  end.

Definition bind_user_id (args : list pyval) (kwargs : list (string * pyval)) : result pyval :=
  result_bind (bind_keywords (head args) kwargs) (fun bound =>
  match args, bound with
  | _ :: _ :: _, _ =>
      Err (PyErr TypeError
             ("get_user_details() takes 1 positional argument but "
              +:+ text (int_chars (Z.of_nat (length args))) +:+ " were given"))
  | _, Some v => Ok v
  | _, None =>
      Err (PyErr TypeError "get_user_details() missing 1 required positional argument: 'user_id'")
  end).

(** The module's global names as far as they differ from run to run:
    [import asyncio] stands inside [if __name__ == "__main__":], so the name
    is bound when [main.py] is run as a script, and is not when the module
    is imported, as [uvicorn main:app] does. *)
Record globals : Type := Globals { asyncio_bound : bool }.

Definition as_script : globals := Globals true.
Definition as_module : globals := Globals false.

(** The endpoint function.  Its arguments are bound when it is called; the
    line is written before [asyncio] is looked up, and without that name the
    body ends there in a [NameError].  It reads the globals and leaves them
    as they are. *)
Definition get_user_details : producer globals :=
  fun args kwargs env =>
    match bind_user_id args kwargs with
    | Err e => (Raise (PyError e), env, [])
    | Ok user_id =>
        let line := Print "Simulating a slow database lookup..." in
        if negb (asyncio_bound env) then
          (Raise (PyError (PyErr NameError "name 'asyncio' is not defined")), env, [line])
        else
          let slow := [line; Sleep 1] in
          match py_dict_get users_db user_id with
          | Err e => (Raise (PyError e), env, slow)
          | Ok found =>
              let user := default PNone found in
              if negb (py_truthy user) then
                (Raise (HTTPException 404 "User not found"), env, slow)
              else (Return user, env, slow)
          end
    end.

(** [@cache_response(ttl=120, namespace="users")] over [get_user_details],
    against the Redis-like store. *)
Definition cached_get_user_details
  : list pyval -> list (string * pyval) -> M (Store := Redis.server) (Env := globals) pyval :=
  cache_response Redis.REDIS (Some 120%Z) (Some "users") get_user_details.

(** The route [/users/{user_id}]: the framework passes the path parameter by
    keyword. *)
Definition get_users (user_id : Z) : M (Store := Redis.server) (Env := globals) pyval :=
  cached_get_user_details [] [("user_id", PInt user_id)].

(** ** Notions the statements below are written with *)

Definition is_invoke (ev : event) : bool :=
  match ev with
  | Invoke _ _ => true
  | _ => false
  end.

Definition is_write (ev : event) : bool :=
  match ev with
  | CacheSet _ _ _ => true
  | _ => false
  end.

(** How often a run called the wrapped function. *)
Definition invocations (t : list event) : nat := length (List.filter is_invoke t).

(** How often a run asked the cache to store something. *)
Definition writes (t : list event) : nat := length (List.filter is_write t).

(** The key a request to the cache names. *)
Definition event_key (ev : event) : option string :=
  match ev with
  | CacheGet k => Some k
  | CacheSet k _ _ => Some k
  | _ => None
  end.

(** [type(e).__name__]. *)
Definition class_name (c : exc_class) : string :=
  match c with
  | IndexError => "IndexError"
  | TypeError => "TypeError"
  | NameError => "NameError"
  | ConnectionError => "ConnectionError"
  | TimeoutError => "TimeoutError"
  | ResponseError => "ResponseError"
  | CancelledError => "CancelledError"
  end.

Definition exn_class_name (e : exn) : string :=
  match e with
  | HTTPException _ _ => "HTTPException"
  | PyError e => class_name (err_class e)
  | JSONDecodeError => "JSONDecodeError"
  end.

Fixpoint distinct (ks : list string) : bool :=
  match ks with
  | [] => true
  | k :: ks' => negb (existsb (String.eqb k) ks') && distinct ks'
  end.

Definition is_str (v : pyval) : bool :=
  match v with
  | PStr _ => true
  | _ => false
  end.

Definition key_text (v : pyval) : string :=
  match v with
  | PStr s => s
  | _ => ""
  end.

(** The values JSON has a shape for: [None], booleans, integers, strings,
    lists of such values, and dictionaries from strings to such values.  The
    keys of a dictionary are pairwise different, as in every [dict]. *)
Fixpoint json_safe (v : pyval) : bool :=
  match v with
  | PNone | PBool _ | PInt _ | PStr _ => true
  | PBytes _ => false
  | PList items => forallb json_safe items
  | PDict items =>
      forallb (fun kv => is_str (fst kv) && json_safe (snd kv)) items
      && distinct (map (fun kv => key_text (fst kv)) items)
  end.

(** A text is followed by the end of the input or by one of the three
    characters that can follow a value inside a list or a dictionary. *)
Definition delimited (rest : list ascii) : bool :=
  match rest with
  | [] => true
  | c :: _ => let n := N_of_ascii c in ((n =? 44) || (n =? 93) || (n =? 125))%N
  end.

(** The three lines the decorator prints. *)
Definition hit_line (key : string) : event :=
  Out (Print ("Cache HIT for key: " +:+ key)).

Definition miss_line (key : string) : event :=
  Out (Print ("Cache MISS for key: " +:+ key +:+ ". Fetching from original source...")).

Definition stored_line (key : string) (ttl : Z) : event :=
  Out (Print ("Data for key " +:+ key +:+ " stored in cache with TTL "
              +:+ text (int_chars ttl) +:+ "s.")).

(** The exception a failed write reaches the caller as. *)
Definition surfaced (e : pyerr) : exn :=
  if is_Exception (err_class e) then http_500 e else PyError e.

(** A numeral without leading zeros: what [Pos.to_uint] produces. *)
Definition leading_nonzero (d : Decimal.uint) : bool :=
  match d with
  | Decimal.Nil | Decimal.D0 _ => false
  | _ => true
  end.

(** The first character of an encoded value is neither white space nor a
    closing bracket. *)
Definition value_start (c : ascii) : bool :=
  negb (is_ws c) && negb (N_of_ascii c =? 93)%N.

Definition starts_value (cs : list ascii) : Prop :=
  exists c cs', cs = c :: cs' /\ value_start c = true.

(** What the induction on values carries: the text of a value exists, starts
    like a value, and is read back from in front of any delimiter by any
    amount of fuel that covers the length of the text. *)
Definition reads_back (v : pyval) : Prop :=
  json_safe v = true ->
  exists cs, encode v = Ok cs /\ starts_value cs /\
    forall fuel rest, (length cs <= fuel)%nat -> delimited rest = true ->
      scan_once fuel (cs ++ rest) = Parsed v false rest.

(** ** Sample data for the examples *)

Definition alice : pyval := user 1 "Alice" "alice@example.com" 25.

(** The text [json.dumps] writes for a value. *)
Definition payload_of (v : pyval) : string :=
  match json_dumps v with
  | Ok payload => payload
  | Err _ => ""
  end.

(** The empty server after the first request for user 1. *)
Definition alice_cached : Redis.server :=
  snd (cache_set (Redis.REDIS "users") "users:user:1" (payload_of alice) 120 Redis.empty).

(** A server that holds an empty text under the key of user 1. *)
Definition blank_cached : Redis.server :=
  snd (cache_set (Redis.REDIS "users") "users:user:1" "" 120 Redis.empty).

(** A producer whose result cannot be serialized. *)
Definition raw_bytes : producer unit :=
  fun _ _ env => (Return (PBytes "x"), env, []).

(** ** Notions for the further properties *)

Definition is_out (ev : event) : bool :=
  match ev with
  | Out _ => true
  | _ => false
  end.

(** The requests and the call of a run, without what is printed. *)
Definition steps (t : list event) : list event :=
  List.filter (fun ev => negb (is_out ev)) t.

(** The text [json.dumps] writes a dictionary key as, and [json.loads]
    reads it back as. *)
Definition coerced_key (k : pyval) : string :=
  match k with
  | PStr s => s
  | PBool true => "true"
  | PBool false => "false"
  | PInt n => text (int_chars n)
  | PNone => "null"
  | _ => ""
  end.

(** What a value comes back as after [json.dumps] and [json.loads]: every
    key of a dictionary as a text, later items replacing earlier ones of the
    same text. *)
Fixpoint normalize (v : pyval) : pyval :=
  match v with
  | PList items => PList (map normalize items)
  | PDict items =>
      PDict (dict_of_pairs (map (fun kv => (coerced_key (fst kv), normalize (snd kv))) items))
  | _ => v
  end.

(** What the induction on values carries for [normalize]. *)
Definition reads_back_as (v : pyval) : Prop :=
  forall cs, encode v = Ok cs ->
    starts_value cs /\
    forall fuel rest, (length cs <= fuel)%nat -> delimited rest = true ->
      scan_once fuel (cs ++ rest) = Parsed (normalize v) false rest.

(** What [get_user_details] does before it looks the user up. *)
Definition slow_lookup : list io :=
  [Print "Simulating a slow database lookup..."; Sleep 1].

(** [@cache_response(ttl=120, namespace="users")] over [get_user_details],
    against any cache. *)
Definition users_endpoint {Store : Type} (REDIS : string -> Cache Store)
  : list pyval -> list (string * pyval) -> M (Store := Store) (Env := globals) pyval :=
  cache_response REDIS (Some 120%Z) (Some "users") get_user_details.

(** A producer that returns one value, whatever it is called with. *)
Definition constant (v : pyval) : producer unit :=
  fun _ _ env => (Return v, env, []).

(** A cache whose [set] is interrupted by a cancellation. *)
Definition cancelled_on_write (srv : Redis.server) : Redis.server :=
  {| Redis.clock := Redis.clock srv;
     Redis.keyspace := Redis.keyspace srv;
     Redis.read_fault := Redis.read_fault srv;
     Redis.write_fault := Some (PyErr CancelledError "") |}.

(** A cache that cannot be read. *)
Definition outage_on_read (srv : Redis.server) : Redis.server :=
  {| Redis.clock := Redis.clock srv;
     Redis.keyspace := Redis.keyspace srv;
     Redis.read_fault := Some Redis.connection_refused;
     Redis.write_fault := Redis.write_fault srv |}.



(** A server that holds a text that is no JSON document under the key of
    user 1. *)
Definition broken_cached : Redis.server :=
  snd (cache_set (Redis.REDIS "users") "users:user:1" "{" 120 Redis.empty).

(** What [get_user_details] has done when it looks [asyncio] up, and what
    the lookup raises when the name is not bound. *)
Definition first_line : list io := [Print "Simulating a slow database lookup..."].

Definition asyncio_undefined : exn :=
  PyError (PyErr NameError "name 'asyncio' is not defined").

(** * Properties *)

(** ** How a call of the wrapper runs *)

Ltac run :=
  unfold wrapper, mbind, M_bind, bind, finish, ret, print, await_get, await_call,
    try_body; simpl.

Section Runs.
Context {Store Env : Type}.
Variable REDIS : string -> Cache Store.
Variables (ttl : Z) (namespace : string) (func : producer Env).
Variables (args : list pyval) (kwargs : list (string * pyval)).

Lemma wrapper_no_identifier e w :
  key_identifier args kwargs = Raise e ->
  wrapper REDIS ttl namespace func args kwargs w = (Raise e, w, []).
Proof. intros H. run. rewrite H. reflexivity. Qed.

Lemma wrapper_read_error id e w :
  key_identifier args kwargs = Return id ->
  cache_get (REDIS namespace) (cache_key_of namespace id) (fst w) = Err e ->
  wrapper REDIS ttl namespace func args kwargs w =
    (Raise (PyError e), w, [CacheGet (cache_key_of namespace id)]).
Proof. intros H1 H2. run. rewrite H1. simpl. rewrite H2. reflexivity. Qed.

Lemma wrapper_hit id payload w :
  key_identifier args kwargs = Return id ->
  cache_get (REDIS namespace) (cache_key_of namespace id) (fst w) = Ok payload ->
  py_truthy payload = true ->
  wrapper REDIS ttl namespace func args kwargs w =
    (json_loads payload, w,
     [CacheGet (cache_key_of namespace id); hit_line (cache_key_of namespace id)]).
Proof.
  intros H1 H2 H3. run. rewrite H1. simpl. rewrite H2, H3. simpl.
  destruct (json_loads payload); reflexivity.
Qed.

(** After a miss everything hangs on the producer and on the write. *)
Lemma wrapper_miss id cached store env :
  key_identifier args kwargs = Return id ->
  cache_get (REDIS namespace) (cache_key_of namespace id) store = Ok cached ->
  py_truthy cached = false ->
  wrapper REDIS ttl namespace func args kwargs (store, env) =
    let key := cache_key_of namespace id in
    let '(o, env', t) := func args kwargs env in
    let called := CacheGet key :: miss_line key :: Invoke args kwargs :: map Out t in
    match o with
    | Return response =>
        match json_dumps response with
        | Err e => (Raise (surfaced e), (store, env'), called)
        | Ok payload =>
            match cache_set (REDIS namespace) key payload ttl store with
            | (Err e, store') =>
                (Raise (surfaced e), (store', env'), called ++ [CacheSet key payload ttl])
            | (Ok _, store') =>
                (Return response, (store', env'),
                 called ++ [CacheSet key payload ttl; stored_line key ttl])
            end
        end
    | Raise e => (Raise e, (store, env'), called)
    | Unmodelled => (Unmodelled, (store, env'), called)
    end.
Proof.
  intros H1 H2 H3. run. rewrite H1. simpl. rewrite H2, H3. simpl.
  destruct (func args kwargs env) as [[o env'] t]. simpl.
  destruct o as [response|e|]; try reflexivity.
  unfold surfaced.
  destruct (json_dumps response) as [payload|e]; simpl.
  - destruct (cache_set (REDIS namespace) _ payload ttl store) as [[[]|e] store']; simpl.
    + reflexivity.
    + destruct (is_Exception (err_class e)); simpl; rewrite ?app_nil_r; reflexivity.
  - destruct (is_Exception (err_class e)); simpl; rewrite ?app_nil_r; reflexivity.
Qed.
End Runs.

(** ** [json.loads] undoes [json.dumps] *)

(** Induction over values, with the hypothesis available for every element
    of a list and for every key and value of a dictionary. *)
Lemma pyval_ind (P : pyval -> Prop) :
  P PNone ->
  (forall b, P (PBool b)) ->
  (forall n, P (PInt n)) ->
  (forall s, P (PStr s)) ->
  (forall b, P (PBytes b)) ->
  (forall items, Forall P items -> P (PList items)) ->
  (forall items, Forall (fun kv => P (fst kv) /\ P (snd kv)) items -> P (PDict items)) ->
  forall v, P v.
Proof.
  intros HNone HBool HInt HStr HBytes HList HDict.
  fix IH 1. intros [ | b | n | s | b | items | items ].
  - exact HNone.
  - apply HBool.
  - apply HInt.
  - apply HStr.
  - apply HBytes.
  - apply HList. induction items as [|x items IHitems]; constructor; [apply IH | exact IHitems].
  - apply HDict. induction items as [|[k x] items IHitems]; constructor;
      [split; apply IH | exact IHitems].
Qed.

Lemma text_chars s : text (chars s) = s.
Proof. apply string_of_list_ascii_of_string. Qed.

Lemma chars_text cs : chars (text cs) = cs.
Proof. apply list_ascii_of_string_of_list_ascii. Qed.

(** One escaped character is read back as that character. *)
Lemma scanstring_escape_char c tail :
  scanstring (escape_char c ++ tail) = parsed_cons c (scanstring tail).
Proof.
  destruct c as [[] [] [] [] [] [] [] []]; reflexivity.
Qed.

Lemma scanstring_escaped cs rest :
  scanstring (flat_map escape_char cs ++ dquote :: rest) = Parsed (text cs) false rest.
Proof.
  induction cs as [|c cs IH]; simpl.
  - reflexivity.
  - rewrite <- app_assoc, scanstring_escape_char, IH. reflexivity.
Qed.

Lemma scanstring_encoded s rest :
  exists body, encode_basestring_ascii s = dquote :: body /\
    scanstring (body ++ rest) = Parsed s false rest.
Proof.
  exists (flat_map escape_char (chars s) ++ [dquote]). split; [reflexivity|].
  rewrite <- app_assoc. simpl. rewrite scanstring_escaped, text_chars. reflexivity.
Qed.

(** *** Integers *)

Lemma chars_uint_chars d : chars_uint (uint_chars d) = d.
Proof. induction d; simpl; congruence. Qed.

Lemma delimited_not_digit rest :
  delimited rest = true ->
  span_digits rest = ([], rest) /\ frac_part rest = None /\ exp_part rest = None.
Proof.
  destruct rest as [|c rest]; [intros _; split; [|split]; reflexivity|].
  destruct c as [[] [] [] [] [] [] [] []]; simpl; intros H; try discriminate H;
    (split; [reflexivity | split; destruct rest; reflexivity]).
Qed.

Lemma span_digits_uint d rest :
  delimited rest = true -> span_digits (uint_chars d ++ rest) = (uint_chars d, rest).
Proof.
  intros H. induction d; simpl; try (rewrite IHd; reflexivity).
  apply delimited_not_digit, H.
Qed.

Lemma nzhead_leading d :
  Decimal.nzhead d = Decimal.Nil \/ leading_nonzero (Decimal.nzhead d) = true.
Proof. induction d; simpl; auto. Qed.

Lemma to_uint_leading p : leading_nonzero (Pos.to_uint p) = true.
Proof.
  pose proof (DecimalPos.Unsigned.to_of (Pos.to_uint p)) as H.
  rewrite DecimalPos.Unsigned.of_to in H. simpl in H.
  unfold Decimal.unorm in H.
  destruct (nzhead_leading (Pos.to_uint p)) as [E|E].
  - rewrite E in H. pose proof (DecimalPos.Unsigned.of_to p) as Hp.
    rewrite H in Hp. discriminate Hp.
  - rewrite H. destruct (Decimal.nzhead (Pos.to_uint p)); try discriminate E; reflexivity.
Qed.

Lemma int_part_uint d rest :
  leading_nonzero d = true -> delimited rest = true ->
  int_part (uint_chars d ++ rest) = Some (uint_chars d, rest).
Proof.
  intros Hd Hr.
  destruct d; try discriminate Hd; simpl;
    rewrite (span_digits_uint _ _ Hr); reflexivity.
Qed.

Lemma digits_value_pos p : digits_value (uint_chars (Pos.to_uint p)) = Z.pos p.
Proof.
  unfold digits_value. rewrite chars_uint_chars.
  change (N.of_uint (Pos.to_uint p)) with (Pos.of_uint (Pos.to_uint p)).
  rewrite DecimalPos.Unsigned.of_to. reflexivity.
Qed.

Lemma uint_chars_not_minus d rest c s :
  leading_nonzero d = true -> uint_chars d ++ rest = c :: s -> (N_of_ascii c =? 45)%N = false.
Proof.
  intros Hd E. destruct d; try discriminate Hd; simpl in E; injection E as <- _; reflexivity.
Qed.

Lemma match_number_int n rest :
  delimited rest = true ->
  match_number (int_chars n ++ rest) = Parsed (PInt n) false rest.
Proof.
  intros Hr. destruct (delimited_not_digit rest Hr) as (_ & Hf & He).
  unfold int_chars, match_number. destruct n as [|p|p]; simpl.
  - rewrite Hf, He. reflexivity.
  - pose proof (to_uint_leading p) as Hp.
    destruct (uint_chars (Pos.to_uint p) ++ rest) as [|c s] eqn:E.
    + destruct (Pos.to_uint p); discriminate.
    + rewrite (uint_chars_not_minus _ _ _ _ Hp E). rewrite <- E.
      rewrite (int_part_uint _ _ Hp Hr), Hf, He, digits_value_pos. reflexivity.
  - pose proof (to_uint_leading p) as Hp.
    rewrite (int_part_uint _ _ Hp Hr), Hf, He, digits_value_pos. reflexivity.
Qed.

(** *** Values *)

Lemma skip_ws_start c s : value_start c = true -> skip_ws (c :: s) = c :: s.
Proof.
  unfold value_start. intros H. simpl. destruct (is_ws c); [discriminate H | reflexivity].
Qed.

Lemma skip_ws_starts cs rest : starts_value cs -> skip_ws (cs ++ rest) = cs ++ rest.
Proof. intros (c & cs' & -> & H). apply skip_ws_start, H. Qed.

Lemma int_chars_start n :
  exists c cs', int_chars n = c :: cs' /\
    (N_of_ascii c =? 45)%N || is_digit c = true.
Proof.
  unfold int_chars. destruct n as [|p|p]; simpl.
  - eexists _, _. split; reflexivity.
  - pose proof (to_uint_leading p) as Hp.
    destruct (Pos.to_uint p); try discriminate Hp; simpl; eexists _, _; split; reflexivity.
  - eexists _, _. split; reflexivity.
Qed.

Lemma reads_back_int n : reads_back (PInt n).
Proof.
  intros _. exists (int_chars n). split; [reflexivity|].
  destruct (int_chars_start n) as (c & cs' & E & Hc).
  split.
  - exists c, cs'. split; [exact E|].
    destruct c as [[] [] [] [] [] [] [] []]; try discriminate Hc; reflexivity.
  - intros fuel rest Hlen Hr.
    pose proof (match_number_int n rest Hr) as Hm. rewrite E in Hm, Hlen |- *.
    destruct fuel as [|fuel]; [simpl in Hlen; lia|].
    destruct c as [[] [] [] [] [] [] [] []]; try discriminate Hc;
      simpl; simpl in Hm; rewrite Hm; reflexivity.
Qed.

Lemma reads_back_str s : reads_back (PStr s).
Proof.
  intros _. exists (encode_basestring_ascii s). split; [reflexivity|]. split.
  - eexists _, _. split; reflexivity.
  - intros fuel rest Hlen _.
    destruct (scanstring_encoded s rest) as (body & E & Hs). rewrite E in Hlen |- *.
    destruct fuel as [|fuel]; [simpl in Hlen; lia|].
    simpl. rewrite Hs. reflexivity.
Qed.

Lemma reads_back_const v cs :
  encode v = Ok cs ->
  (cs = chars "null" /\ v = PNone) \/ (cs = chars "true" /\ v = PBool true)
  \/ (cs = chars "false" /\ v = PBool false) ->
  reads_back v.
Proof.
  intros E H _. exists cs. split; [exact E|].
  destruct H as [[-> ->]|[[-> ->]|[-> ->]]]; (split; [eexists _, _; split; reflexivity|]);
    intros [|fuel] rest Hlen _; try (simpl in Hlen; lia); reflexivity.
Qed.

Lemma join_cons2 sep p q ps : join sep (p :: q :: ps) = p ++ sep ++ join sep (q :: ps).
Proof. simpl. rewrite <- app_assoc. reflexivity. Qed.

Lemma length_join_cons2 sep p q ps :
  length (join sep (p :: q :: ps)) = (length p + length sep + length (join sep (q :: ps)))%nat.
Proof. rewrite join_cons2, !length_app. lia. Qed.

(** The elements of a list, from the first one to the closing bracket. *)
Lemma array_items_encode items :
  Forall reads_back items -> forallb json_safe items = true ->
  exists parts, result_map encode items = Ok parts /\
    (items <> [] ->
     starts_value (join (chars ", ") parts) /\
     forall fuel rest, (length (join (chars ", ") parts) < fuel)%nat ->
       array_items fuel (join (chars ", ") parts ++ "]"%char :: rest) = Parsed items false rest).
Proof.
  induction 1 as [|v items Hv _ IH]; intros Hsafe.
  - exists []. split; [reflexivity | congruence].
  - simpl in Hsafe. apply andb_true_iff in Hsafe as [Hsv Hsi].
    destruct (Hv Hsv) as (p & Ep & Hstart & Hscan).
    destruct (IH Hsi) as (ps & Eps & Hrest).
    exists (p :: ps). split; [simpl; rewrite Ep; simpl; rewrite Eps; reflexivity|].
    intros _. destruct items as [|v2 items].
    + simpl in Eps. injection Eps as <-. simpl. rewrite app_nil_r.
      split; [exact Hstart|]. intros [|fuel] rest Hlen; [lia|].
      simpl. rewrite Hscan; [reflexivity | lia | reflexivity].
    + destruct (Hrest ltac:(congruence)) as [Hstart2 Hscan2].
      destruct ps as [|q ps]; [destruct Hstart2 as (? & ? & ? & _); discriminate|].
      split.
      * destruct Hstart as (c & cs' & -> & Hc). eexists _, _. split; [reflexivity | exact Hc].
      * intros [|fuel] rest Hlen; [lia|].
        rewrite length_join_cons2 in Hlen. rewrite join_cons2.
        remember (join (chars ", ") (q :: ps)) as tl eqn:Etl.
        rewrite <- !app_assoc. simpl in Hlen |- *.
        rewrite Hscan; [ | lia | reflexivity]. simpl.
        rewrite skip_ws_starts by exact Hstart2.
        rewrite Hscan2 by lia. reflexivity.
Qed.

Lemma distinct_NoDup ks : distinct ks = true -> NoDup ks.
Proof.
  induction ks as [|k ks IH]; simpl; intros H; constructor.
  - apply andb_true_iff in H as [H _]. apply negb_true_iff in H.
    intros Hin. apply list_elem_of_In in Hin.
    assert (existsb (String.eqb k) ks = true) as E; [|congruence].
    apply existsb_exists. exists k. split; [exact Hin | apply String.eqb_refl].
  - apply IH. apply andb_true_iff in H as [_ H]. exact H.
Qed.

Lemma dict_setitem_fresh d key value :
  key ∉ map fst d -> dict_setitem d key value = d ++ [(key, value)].
Proof.
  induction d as [|[k v] d IH]; simpl; intros Hk; [reflexivity|].
  destruct (String.eqb_spec k key) as [->|Hne].
  - exfalso. apply Hk. left.
  - rewrite IH; [reflexivity|]. intros Hin. apply Hk. right. exact Hin.
Qed.

Lemma fold_setitem_distinct pairs acc :
  NoDup (map fst (acc ++ pairs)) ->
  fold_left (fun d kv => dict_setitem d (fst kv) (snd kv)) pairs acc = acc ++ pairs.
Proof.
  revert acc. induction pairs as [|[k v] pairs IH]; intros acc Hnd; simpl.
  - rewrite app_nil_r. reflexivity.
  - rewrite dict_setitem_fresh.
    + rewrite IH; rewrite <- app_assoc; [reflexivity | exact Hnd].
    + rewrite map_app in Hnd. apply NoDup_app in Hnd as (_ & Hdisj & _).
      intros Hin. apply (Hdisj k Hin). left.
Qed.

Lemma dict_of_pairs_items items :
  forallb (fun kv => is_str (fst kv) && json_safe (snd kv)) items = true ->
  distinct (map (fun kv => key_text (fst kv)) items) = true ->
  dict_of_pairs (map (fun kv => (key_text (fst kv), snd kv)) items) = items.
Proof.
  intros Hstr Hd. unfold dict_of_pairs.
  rewrite (fold_setitem_distinct _ []).
  - simpl. rewrite map_map. simpl.
    induction items as [|[k v] items IH]; [reflexivity|]. simpl in Hstr, Hd |- *.
    apply andb_true_iff in Hstr as [Hk Hstr]. apply andb_true_iff in Hk as [Hk _].
    apply andb_true_iff in Hd as [_ Hd].
    rewrite (IH Hstr Hd). destruct k; try discriminate Hk. reflexivity.
  - simpl. rewrite map_map. simpl. apply distinct_NoDup, Hd.
Qed.

(** The items of a dictionary, from the first key (after its opening quote)
    to the closing brace. *)
Lemma object_items_encode items :
  Forall (fun kv => reads_back (fst kv) /\ reads_back (snd kv)) items ->
  forallb (fun kv => is_str (fst kv) && json_safe (snd kv)) items = true ->
  exists parts, result_map (encode_item encode) items = Ok parts /\
    (items <> [] ->
     exists body, join (chars ", ") parts = dquote :: body /\
     forall fuel rest, (length body < fuel)%nat ->
       object_items fuel (body ++ "}"%char :: rest) =
         Parsed (map (fun kv => (key_text (fst kv), snd kv)) items) false rest).
Proof.
  induction 1 as [|[k v] items [_ Hv] _ IH]; intros Hsafe.
  - exists []. split; [reflexivity | congruence].
  - simpl in Hsafe, Hv. apply andb_true_iff in Hsafe as [Hkv Hsi].
    apply andb_true_iff in Hkv as [Hk Hsv].
    destruct k as [ | | | s | | | ]; try discriminate Hk.
    destruct (Hv Hsv) as (vt & Ev & Hstart & Hscan).
    destruct (IH Hsi) as (ps & Eps & Hrest).
    remember (flat_map escape_char (chars s)) as esc eqn:Eesc.
    exists (((dquote :: esc ++ [dquote]) ++ chars ": " ++ vt) :: ps).
    split.
    { simpl. unfold encode_item at 1. simpl. rewrite Ev. simpl. rewrite Eps. simpl.
      unfold encode_basestring_ascii. rewrite <- Eesc. reflexivity. }
    intros _.
    assert (Hkey : forall tail, scanstring (esc ++ dquote :: tail) = Parsed s false tail).
    { intros tail. rewrite Eesc, scanstring_escaped, text_chars. reflexivity. }
    destruct items as [|kv2 items].
    + simpl in Eps. injection Eps as <-.
      exists (esc ++ [dquote] ++ chars ": " ++ vt). split.
      { simpl. rewrite app_nil_r, <- !app_assoc. reflexivity. }
      intros [|fuel] rest Hlen; [lia|].
      repeat (rewrite length_app in Hlen; simpl in Hlen).
      rewrite <- !app_assoc. simpl. rewrite Hkey. simpl.
      rewrite skip_ws_starts by exact Hstart.
      rewrite Hscan; [reflexivity | lia | reflexivity].
    + destruct (Hrest ltac:(congruence)) as (body2 & Ebody2 & Hscan2).
      destruct ps as [|q ps]; [discriminate Ebody2|].
      exists (esc ++ [dquote] ++ chars ": " ++ vt ++ chars ", " ++ dquote :: body2). split.
      { rewrite join_cons2, Ebody2. simpl. rewrite <- !app_assoc. reflexivity. }
      intros [|fuel] rest Hlen; [lia|].
      repeat (rewrite length_app in Hlen; simpl in Hlen).
      rewrite <- !app_assoc. simpl. rewrite Hkey. simpl.
      rewrite skip_ws_starts by exact Hstart.
      rewrite Hscan; [ | lia | reflexivity]. simpl.
      rewrite Hscan2 by lia. reflexivity.
Qed.

Theorem encode_reads_back v : reads_back v.
Proof.
  induction v as [ | [] | n | s | b | items IH | items IH ] using pyval_ind.
  - apply (reads_back_const _ (chars "null")); auto.
  - apply (reads_back_const _ (chars "true")); auto.
  - apply (reads_back_const _ (chars "false")); auto.
  - apply reads_back_int.
  - apply reads_back_str.
  - intros H. discriminate H.
  - intros Hsafe. simpl in Hsafe.
    destruct (array_items_encode items IH Hsafe) as (parts & Eparts & Hitems).
    exists ("["%char :: join (chars ", ") parts ++ ["]"%char]). split; [|split].
    + simpl. rewrite Eparts. reflexivity.
    + eexists _, _. split; reflexivity.
    + intros [|fuel] rest Hlen _; [simpl in Hlen; lia|].
      destruct items as [|v items].
      * simpl in Eparts. injection Eparts as <-. reflexivity.
      * destruct (Hitems ltac:(congruence)) as [Hstart Hscan].
        remember (join (chars ", ") parts) as body eqn:Ebody.
        simpl in Hlen. rewrite length_app in Hlen. simpl in Hlen.
        rewrite <- app_comm_cons, <- app_assoc. simpl.
        rewrite skip_ws_starts by exact Hstart.
        destruct Hstart as (c & cs' & Ejoin & Hc). rewrite Ejoin in Hscan, Hlen |- *.
        simpl. unfold value_start in Hc. apply andb_true_iff in Hc as [_ Hc].
        apply negb_true_iff in Hc. rewrite Hc.
        change (c :: cs' ++ "]"%char :: rest) with ((c :: cs') ++ "]"%char :: rest).
        rewrite Hscan by (simpl in Hlen |- *; lia). reflexivity.
  - intros Hsafe. simpl in Hsafe. apply andb_true_iff in Hsafe as [Hsafe Hdist].
    destruct (object_items_encode items IH Hsafe) as (parts & Eparts & Hitems).
    exists ("{"%char :: join (chars ", ") parts ++ ["}"%char]). split; [|split].
    + simpl. rewrite Eparts. reflexivity.
    + eexists _, _. split; reflexivity.
    + intros [|fuel] rest Hlen _; [simpl in Hlen; lia|].
      destruct items as [|kv items].
      * simpl in Eparts. injection Eparts as <-. reflexivity.
      * destruct (Hitems ltac:(congruence)) as (body & Ejoin & Hscan).
        rewrite Ejoin in Hlen |- *.
        simpl in Hlen. rewrite length_app in Hlen. simpl in Hlen.
        pose proof (dict_of_pairs_items (kv :: items) Hsafe Hdist) as Hdict.
        remember (map (fun kv => (key_text (fst kv), snd kv)) (kv :: items)) as pairs.
        rewrite <- !app_comm_cons, <- app_assoc. simpl.
        rewrite Hscan by lia. simpl. rewrite Hdict. reflexivity.
Qed.

(** *** The decoder never runs out of fuel *)

Lemma skip_ws_length s : (length (skip_ws s) <= length s)%nat.
Proof. induction s as [|c s IH]; simpl; [lia|]. destruct (is_ws c); simpl; lia. Qed.

Lemma skip_ws_cons s x r : skip_ws s = x :: r -> (length r < length s)%nat.
Proof. intros E. pose proof (skip_ws_length s) as H. rewrite E in H. simpl in H. lia. Qed.

Lemma parsed_cons_inv c p k f r :
  parsed_cons c p = Parsed k f r -> exists k' f', p = Parsed k' f' r.
Proof. destruct p; simpl; intros H; try discriminate H. injection H as _ _ <-. eauto. Qed.

Lemma foreign_part_inv {A} (p : parsed A) k f r :
  foreign_part p = Parsed k f r -> exists f', p = Parsed k f' r.
Proof. destruct p; simpl; intros H; try discriminate H. injection H as <- _ <-. eauto. Qed.

Lemma scanstring_consumes s :
  forall k f r, scanstring s = Parsed k f r -> (length r < length s)%nat.
Proof.
  induction s as [s IH] using (induction_ltof1 _ (@length ascii)). unfold ltof in IH.
  intros k f r H. destruct s as [|c s]; [discriminate H|]. simpl in H.
  destruct (N_of_ascii c =? 34)%N.
  { injection H as _ _ <-. simpl. lia. }
  destruct (N_of_ascii c =? 92)%N.
  - destruct s as [|e s]; [discriminate H|].
    destruct (N_of_ascii e =? 117)%N.
    + destruct s as [|h1 [|h2 [|h3 [|h4 s]]]]; try discriminate H.
      destruct (hex4 h1 h2 h3 h4) as [cp|]; [|discriminate H].
      destruct (cp <? 256)%N; [|apply foreign_part_inv in H as [f' H]];
        apply parsed_cons_inv in H as (k' & f'' & H); apply IH in H; simpl in *; lia.
    + destruct (unescape e); [|discriminate H].
      apply parsed_cons_inv in H as (k' & f' & H). apply IH in H; simpl in *; lia.
  - destruct (N_of_ascii c <? 32)%N; [discriminate H|].
    apply parsed_cons_inv in H as (k' & f' & H). apply IH in H; simpl in *; lia.
Qed.

Lemma scanstring_not_starved s : scanstring s <> Starved.
Proof.
  induction s as [s IH] using (induction_ltof1 _ (@length ascii)). unfold ltof in IH.
  assert (Hcons : forall c t, (length t < length s)%nat -> parsed_cons c (scanstring t) <> Starved).
  { intros c t Ht. specialize (IH t Ht). destruct (scanstring t); simpl; congruence. }
  assert (Hfor : forall c t, (length t < length s)%nat ->
                   foreign_part (parsed_cons c (scanstring t)) <> Starved).
  { intros c t Ht. specialize (Hcons c t Ht).
    destruct (parsed_cons c (scanstring t)); simpl; congruence. }
  destruct s as [|c s]; [discriminate|]. simpl.
  destruct (N_of_ascii c =? 34)%N; [discriminate|].
  destruct (N_of_ascii c =? 92)%N.
  - destruct s as [|e s]; [discriminate|].
    destruct (N_of_ascii e =? 117)%N.
    + destruct s as [|h1 [|h2 [|h3 [|h4 s]]]]; try discriminate.
      destruct (hex4 h1 h2 h3 h4) as [cp|]; [|discriminate].
      destruct (cp <? 256)%N; [apply Hcons | apply Hfor]; simpl; lia.
    + destruct (unescape e); [|discriminate]. apply Hcons. simpl. lia.
  - destruct (N_of_ascii c <? 32)%N; [discriminate|]. apply Hcons. simpl. lia.
Qed.

Lemma starts_with_length p s r :
  starts_with p s = Some r -> (length r + length p = length s)%nat.
Proof.
  revert s. induction p as [|a p IH]; intros s H; simpl in H.
  - injection H as <-. simpl. lia.
  - destruct s as [|b s]; [discriminate H|]. destruct (Ascii.eqb a b); [|discriminate H].
    apply IH in H. simpl. lia.
Qed.

Lemma span_digits_length s ds r : span_digits s = (ds, r) -> (length r <= length s)%nat.
Proof.
  revert ds r. induction s as [|c s IH]; intros ds r H; simpl in H.
  - injection H as _ <-. lia.
  - destruct (is_digit c).
    + destruct (span_digits s) as [ds' r'] eqn:E. injection H as _ <-.
      specialize (IH _ _ eq_refl). simpl. lia.
    + injection H as _ <-. lia.
Qed.

Lemma span_digits_rest s : (length (snd (span_digits s)) <= length s)%nat.
Proof.
  destruct (span_digits s) as [ds r] eqn:E. apply span_digits_length in E. exact E.
Qed.

Lemma frac_part_length s r : frac_part s = Some r -> (length r < length s)%nat.
Proof.
  destruct s as [|c [|d s]]; try discriminate. simpl.
  destruct ((N_of_ascii c =? 46)%N && is_digit d); [|discriminate].
  intros H. injection H as <-. pose proof (span_digits_rest s). simpl. lia.
Qed.

Lemma exp_part_length s r : exp_part s = Some r -> (length r < length s)%nat.
Proof.
  destruct s as [|c [|d s]]; try discriminate. simpl.
  destruct ((N_of_ascii c =? 101) || (N_of_ascii c =? 69))%N; [|discriminate].
  destruct (is_digit d).
  - intros H. injection H as <-. pose proof (span_digits_rest s). simpl. lia.
  - destruct ((N_of_ascii d =? 43) || (N_of_ascii d =? 45))%N; [|discriminate].
    destruct s as [|x s]; [discriminate|]. destruct (is_digit x); [|discriminate].
    intros H. injection H as <-. pose proof (span_digits_rest s). simpl. lia.
Qed.

Lemma int_part_length s ds r : int_part s = Some (ds, r) -> (length r < length s)%nat.
Proof.
  intros H. destruct s as [|c s]; [discriminate H|]. simpl in H.
  destruct (N_of_ascii c =? 48)%N; [injection H as _ <-; simpl; lia|].
  destruct (is_digit c); [|discriminate H].
  destruct (span_digits s) as [ds' r'] eqn:E. injection H as _ <-.
  apply span_digits_length in E. simpl. lia.
Qed.

Lemma match_number_consumes s v f r :
  match_number s = Parsed v f r -> (length r < length s)%nat.
Proof.
  unfold match_number. intros H.
  destruct s as [|c s]; [simpl in H; discriminate H|].
  destruct (N_of_ascii c =? 45)%N.
  - destruct (int_part s) as [[ds rest]|] eqn:Ei; [|discriminate H].
    apply int_part_length in Ei.
    destruct (frac_part rest) as [rest1|] eqn:Ef.
    + apply frac_part_length in Ef. injection H as _ _ <-.
      destruct (exp_part rest1) as [rest2|] eqn:Ee; [apply exp_part_length in Ee|]; simpl in *; lia.
    + destruct (exp_part rest) as [rest2|] eqn:Ee.
      * apply exp_part_length in Ee. injection H as _ _ <-. simpl in *. lia.
      * injection H as _ _ <-. simpl in *. lia.
  - destruct (int_part (c :: s)) as [[ds rest]|] eqn:Ei; [|discriminate H].
    apply int_part_length in Ei.
    destruct (frac_part rest) as [rest1|] eqn:Ef.
    + apply frac_part_length in Ef. injection H as _ _ <-.
      destruct (exp_part rest1) as [rest2|] eqn:Ee; [apply exp_part_length in Ee|]; simpl in *; lia.
    + destruct (exp_part rest) as [rest2|] eqn:Ee.
      * apply exp_part_length in Ee. injection H as _ _ <-. simpl in *. lia.
      * injection H as _ _ <-. simpl in *. lia.
Qed.

Lemma match_number_not_starved s : match_number s <> Starved.
Proof.
  unfold match_number.
  destruct (match s with
            | [] => (false, s)
            | c :: s' => if (N_of_ascii c =? 45)%N then (true, s') else (false, s)
            end) as [negative body].
  destruct (int_part body) as [[ds r]|]; [|discriminate].
  destruct (frac_part r); [discriminate|]. destruct (exp_part r); discriminate.
Qed.

(** Case analysis on every scrutinee met, innermost first. *)
Ltac break_matches :=
  repeat match goal with
         | H : context [match ?x with _ => _ end] |- _ =>
             lazymatch x with
             | context [match _ with _ => _ end] => fail
             | _ => destruct x eqn:?; try discriminate H
             end
         | |- context [match ?x with _ => _ end] =>
             lazymatch x with
             | context [match _ with _ => _ end] => fail
             | _ => destruct x eqn:?
             end
         end.

Ltac note_lengths :=
  repeat match goal with
         | H : skip_ws _ = _ :: _ |- _ => apply skip_ws_cons in H
         | H : scanstring _ = Parsed _ _ _ |- _ => apply scanstring_consumes in H
         | H : starts_with _ _ = Some _ |- _ => apply starts_with_length in H
         | H : match_number _ = Parsed _ _ _ |- _ => apply match_number_consumes in H
         end.

(** Whatever is scanned, the text left over is shorter. *)
Lemma scan_consumes fuel :
  (forall s v f r, scan_once fuel s = Parsed v f r -> (length r < length s)%nat) /\
  (forall s vs f r, array_items fuel s = Parsed vs f r -> (length r < length s)%nat) /\
  (forall s kvs f r, object_items fuel s = Parsed kvs f r -> (length r < length s)%nat).
Proof.
  induction fuel as [|fuel (IHs & IHa & IHo)]; [repeat split; intros; discriminate|].
  repeat split.
  - intros s v f r H. cbn [scan_once] in H. unfold parsed_bind in H. break_matches;
      try (injection H as _ _ <-); subst;
      repeat match goal with
             | E : array_items fuel _ = Parsed _ _ _ |- _ => apply IHa in E
             | E : object_items fuel _ = Parsed _ _ _ |- _ => apply IHo in E
             end; note_lengths; simpl in *; lia.
  - intros s vs f r H. cbn [array_items] in H. unfold parsed_bind in H. break_matches;
      try (injection H as _ _ <-); subst;
      repeat match goal with
             | E : scan_once fuel _ = Parsed _ _ _ |- _ => apply IHs in E
             | E : array_items fuel _ = Parsed _ _ _ |- _ => apply IHa in E
             end; note_lengths;
      repeat match goal with
             | E : context [skip_ws ?t] |- _ =>
                 lazymatch goal with
                 | _ : (length (skip_ws t) <= length t)%nat |- _ => fail
                 | _ => pose proof (skip_ws_length t)
                 end
             end; simpl in *; lia.
  - intros s kvs f r H. cbn [object_items] in H. unfold parsed_bind in H. break_matches;
      try (injection H as _ _ <-); subst;
      repeat match goal with
             | E : scan_once fuel _ = Parsed _ _ _ |- _ => apply IHs in E
             | E : object_items fuel _ = Parsed _ _ _ |- _ => apply IHo in E
             end; note_lengths;
      repeat match goal with
             | E : context [skip_ws ?t] |- _ =>
                 lazymatch goal with
                 | _ : (length (skip_ws t) <= length t)%nat |- _ => fail
                 | _ => pose proof (skip_ws_length t)
                 end
             end; simpl in *; lia.
Qed.

Ltac note_skips :=
  repeat match goal with
         | E : context [skip_ws ?t] |- _ =>
             lazymatch goal with
             | _ : (length (skip_ws t) <= length t)%nat |- _ => fail
             | _ => pose proof (skip_ws_length t)
             end
         end.

Lemma scan_never_starved fuel :
  (forall s, (2 * length s + 1 <= fuel)%nat -> scan_once fuel s <> Starved) /\
  (forall s, (2 * length s + 2 <= fuel)%nat -> array_items fuel s <> Starved) /\
  (forall s, (2 * length s + 2 <= fuel)%nat -> object_items fuel s <> Starved).
Proof.
  induction fuel as [|fuel (IHs & IHa & IHo)]; [repeat split; intros; lia|].
  destruct (scan_consumes fuel) as (Cs & Ca & Co).
  repeat split; intros s Hlen; [cbn [scan_once] | cbn [array_items] | cbn [object_items]];
    unfold parsed_bind; break_matches;
    try discriminate; exfalso; subst;
    try match goal with
        | E : scanstring _ = Starved |- _ => exact (scanstring_not_starved _ E)
        | E : match_number _ = Starved |- _ => exact (match_number_not_starved _ E)
        end;
    repeat match goal with
           | E : scan_once fuel _ = Parsed _ _ _ |- _ => apply Cs in E
           | E : array_items fuel _ = Parsed _ _ _ |- _ => apply Ca in E
           | E : object_items fuel _ = Parsed _ _ _ |- _ => apply Co in E
           end;
    note_skips; note_lengths;
    match goal with
    | E : scan_once fuel _ = Starved |- _ => apply IHs in E; [exact E | simpl in *; lia]
    | E : array_items fuel _ = Starved |- _ => apply IHa in E; [exact E | simpl in *; lia]
    | E : object_items fuel _ = Starved |- _ => apply IHo in E; [exact E | simpl in *; lia]
    end.
Qed.

(** [json.loads] is decided by the text alone: the fuel it starts with is
    never used up. *)
Lemma decode_never_starved s : decode (fuel_for s) s <> Starved.
Proof.
  unfold decode, fuel_for, parsed_bind.
  destruct (scan_once (S (2 * length s)) (skip_ws s)) eqn:E.
  - destruct (skip_ws rest); simpl; discriminate.
  - discriminate.
  - exfalso. destruct (scan_never_starved (S (2 * length s))) as (Hs & _ & _).
    apply (Hs (skip_ws s)); [|exact E]. pose proof (skip_ws_length s). lia.
Qed.

(** ** C6 *)

Lemma json_loads_dumps x :
  json_safe x = true ->
  exists payload, json_dumps x = Ok payload /\ json_loads (PStr payload) = Return x.
Proof.
  intros Hsafe. destruct (encode_reads_back x Hsafe) as (cs & E & Hstart & Hscan).
  exists (text cs). split.
  - unfold json_dumps. rewrite E. reflexivity.
  - unfold json_loads, loads_text, decode. rewrite chars_text.
    rewrite <- (app_nil_r cs) at 2. rewrite skip_ws_starts by exact Hstart.
    rewrite Hscan; [reflexivity | unfold fuel_for; lia | reflexivity].
Qed.

(** ** Traces *)

Lemma invocations_app t1 t2 : invocations (t1 ++ t2) = (invocations t1 + invocations t2)%nat.
Proof. unfold invocations. rewrite List.filter_app, length_app. reflexivity. Qed.

Lemma writes_app t1 t2 : writes (t1 ++ t2) = (writes t1 + writes t2)%nat.
Proof. unfold writes. rewrite List.filter_app, length_app. reflexivity. Qed.

Lemma invocations_out t : invocations (map Out t) = 0%nat.
Proof. induction t as [|e t IH]; [reflexivity | exact IH]. Qed.

Lemma writes_out t : writes (map Out t) = 0%nat.
Proof. induction t as [|e t IH]; [reflexivity | exact IH]. Qed.

Lemma event_key_out t (P : string -> Prop) :
  Forall (fun ev => forall k, event_key ev = Some k -> P k) (map Out t).
Proof. induction t; constructor; [intros k H; discriminate H | assumption]. Qed.

Lemma invocations_cons ev t :
  invocations (ev :: t) = (Nat.b2n (is_invoke ev) + invocations t)%nat.
Proof. unfold invocations. simpl. destruct (is_invoke ev); reflexivity. Qed.

Lemma writes_cons ev t : writes (ev :: t) = (Nat.b2n (is_write ev) + writes t)%nat.
Proof. unfold writes. simpl. destruct (is_write ev); reflexivity. Qed.

Lemma invocations_nil : invocations [] = 0%nat.
Proof. reflexivity. Qed.

Lemma writes_nil : writes [] = 0%nat.
Proof. reflexivity. Qed.

Create Rewrite HintDb trace.
#[local] Hint Rewrite invocations_cons invocations_app invocations_out invocations_nil
  writes_cons writes_app writes_out writes_nil : trace.

(** Counting the events of an explicit trace. *)
Ltac count := autorewrite with trace; reflexivity.

(** ** What [json.dumps] hands to the cache *)

Lemma encode_nonempty v cs : encode v = Ok cs -> cs <> [].
Proof.
  destruct v as [ | [] | n | s | b | items | items ]; simpl; intros H;
    try (injection H as <-; discriminate); try discriminate H.
  - injection H as <-. destruct (int_chars_start n) as (c & cs' & -> & _). discriminate.
  - destruct (result_map encode items); simpl in H; [injection H as <-|]; discriminate.
  - destruct (result_map (encode_item encode) items); simpl in H; [injection H as <-|];
      discriminate.
Qed.

Lemma json_dumps_truthy v payload :
  json_dumps v = Ok payload -> py_truthy (PStr payload) = true.
Proof.
  unfold json_dumps. destruct (encode v) as [cs|e] eqn:E; simpl; intros H; [|discriminate H].
  injection H as <-. apply encode_nonempty in E.
  destruct cs; [congruence | reflexivity].
Qed.

(** Serialization fails with a [TypeError] and nothing else. *)
Lemma json_dumps_error_class v e : json_dumps v = Err e -> err_class e = TypeError.
Proof.
  assert (Henc : forall v e, encode v = Err e -> err_class e = TypeError).
  { clear v e. induction v as [ | [] | n | s | b | items IH | items IH ] using pyval_ind;
      simpl; intros e H; try discriminate H.
    - injection H as <-. reflexivity.
    - destruct (result_map encode items) as [parts|e'] eqn:E; simpl in H; [discriminate H|].
      injection H as <-. clear - IH E. revert e' E.
      induction IH as [|x l Hx _ IHl]; simpl; intros e' E; [discriminate E|].
      destruct (encode x) as [y|e''] eqn:Ex; simpl in E.
      + destruct (result_map encode l); simpl in E; [discriminate E|].
        injection E as <-. eauto.
      + injection E as <-. eauto.
    - destruct (result_map (encode_item encode) items) as [parts|e'] eqn:E; simpl in H;
        [discriminate H|].
      injection H as <-. clear - IH E. revert e' E.
      induction IH as [|[k x] l [_ Hx] _ IHl]; simpl; intros e' E; [discriminate E|].
      unfold encode_item at 1 in E. simpl in E, Hx.
      destruct (encode_key k) as [kt|ek] eqn:Ek; simpl in E.
      + destruct (encode x) as [y|e''] eqn:Ex; simpl in E.
        * destruct (result_map (encode_item encode) l); simpl in E; [discriminate E|].
          injection E as <-. eauto.
        * injection E as <-. eauto.
      + injection E as <-. destruct k as [ | [] | | | | | ]; simpl in Ek; try discriminate Ek;
          injection Ek as <-; reflexivity. }
  unfold json_dumps. destruct (encode v) as [cs|e'] eqn:E; simpl; intros H; [discriminate H|].
  injection H as <-. eauto.
Qed.

(** ** The claims about the decorator *)

Section Claims.
Context {Store Env : Type}.
Variable REDIS : string -> Cache Store.
Variables (ttl : Z) (namespace : string) (func : producer Env).
Variables (args : list pyval) (kwargs : list (string * pyval)).

(** A miss that is written, followed by a call that finds the entry. *)
Lemma miss_then_hit id cached store store1 store2 env env1 env2 response payload t :
  key_identifier args kwargs = Return id ->
  cache_get (REDIS namespace) (cache_key_of namespace id) store = Ok cached ->
  py_truthy cached = false ->
  func args kwargs env = (Return response, env1, t) ->
  json_safe response = true ->
  json_dumps response = Ok payload ->
  cache_set (REDIS namespace) (cache_key_of namespace id) payload ttl store = (Ok tt, store1) ->
  cache_get (REDIS namespace) (cache_key_of namespace id) store2 = Ok (PStr payload) ->
  exists t1 t2,
    wrapper REDIS ttl namespace func args kwargs (store, env) =
      (Return response, (store1, env1), t1) /\
    wrapper REDIS ttl namespace func args kwargs (store2, env2) =
      (Return response, (store2, env2), t2) /\
    invocations (t1 ++ t2) = 1%nat.
Proof.
  intros Hid Hget Hmiss Hfunc Hsafe Hdumps Hset Hget2.
  pose proof (wrapper_miss REDIS ttl namespace func args kwargs id cached store env
                Hid Hget Hmiss) as H1.
  simpl in H1. rewrite Hfunc, Hdumps, Hset in H1.
  pose proof (wrapper_hit REDIS ttl namespace func args kwargs id (PStr payload)
                (store2, env2) Hid Hget2 (json_dumps_truthy _ _ Hdumps)) as H2.
  destruct (json_loads_dumps response Hsafe) as (payload' & Hdumps' & Hloads).
  rewrite Hdumps in Hdumps'. injection Hdumps' as <-. rewrite Hloads in H2.
  eexists _, _. split; [exact H1|]. split; [exact H2|].
  count.
Qed.


(** C3.  When the producer returns and the write then fails, because the
    result cannot be serialized or because [cache.set] raises an
    [Exception], the call raises an [HTTPException] with status 500 instead
    of returning the result. *)
Theorem failed_write_fails_the_call id cached store env env1 response t e :
  key_identifier args kwargs = Return id ->
  cache_get (REDIS namespace) (cache_key_of namespace id) store = Ok cached ->
  py_truthy cached = false ->
  func args kwargs env = (Return response, env1, t) ->
  json_dumps response = Err e \/
    (exists payload store1,
       json_dumps response = Ok payload /\
       cache_set (REDIS namespace) (cache_key_of namespace id) payload ttl store
         = (Err e, store1) /\
       is_Exception (err_class e) = true) ->
  exists w1 t1,
    wrapper REDIS ttl namespace func args kwargs (store, env) =
      (Raise (HTTPException 500 ("Error caching data: " +:+ err_str e)), w1, t1) /\
    invocations t1 = 1%nat.
Proof.
  intros Hid Hget Hmiss Hfunc Hfail.
  pose proof (wrapper_miss REDIS ttl namespace func args kwargs id cached store env
                Hid Hget Hmiss) as H1.
  simpl in H1. rewrite Hfunc in H1.
  destruct Hfail as [Hdumps | (payload & store1 & Hdumps & Hset & Hexc)].
  - rewrite Hdumps in H1. unfold surfaced in H1.
    rewrite (json_dumps_error_class _ _ Hdumps) in H1. simpl in H1.
    eexists _, _. split; [exact H1 | count].
  - rewrite Hdumps, Hset in H1. unfold surfaced in H1. rewrite Hexc in H1.
    eexists _, _. split; [exact H1 | count].
Qed.

(** C4.  When the wrapped function fails, the call fails with the same
    exception, asks the cache to store nothing and leaves the store as it
    was, so a repeated call invokes the wrapped function again. *)
Theorem producer_failure_propagates id cached store env env1 e t :
  key_identifier args kwargs = Return id ->
  cache_get (REDIS namespace) (cache_key_of namespace id) store = Ok cached ->
  py_truthy cached = false ->
  func args kwargs env = (Raise e, env1, t) ->
  (exists t1,
     wrapper REDIS ttl namespace func args kwargs (store, env) = (Raise e, (store, env1), t1) /\
     writes t1 = 0%nat /\ invocations t1 = 1%nat) /\
  (forall env2, exists o w2 t2,
     wrapper REDIS ttl namespace func args kwargs (store, env2) =
       (o, w2, t2) /\ invocations t2 = 1%nat).
Proof.
  intros Hid Hget Hmiss Hfunc.
  pose proof (wrapper_miss REDIS ttl namespace func args kwargs id cached store) as Hrun.
  split.
  - specialize (Hrun env Hid Hget Hmiss). simpl in Hrun. rewrite Hfunc in Hrun.
    eexists. split; [exact Hrun|]. split; count.
  - intros env2. specialize (Hrun env2 Hid Hget Hmiss). simpl in Hrun.
    destruct (func args kwargs env2) as [[o env3] t2].
    destruct o as [response|e2|].
    + destruct (json_dumps response) as [payload|e2].
      * destruct (cache_set (REDIS namespace) _ payload ttl store) as [[[]|e2] store1];
          eexists _, _, _; (split; [exact Hrun | count]).
      * eexists _, _, _. split; [exact Hrun | count].
    + eexists _, _, _. split; [exact Hrun | count].
    + eexists _, _, _. split; [exact Hrun | count].
Qed.
End Claims.

Section KeyClaims.
Context {Store Env : Type}.
Variable REDIS : string -> Cache Store.
Variables (ttl : Z) (namespace : string) (func : producer Env).
Variables (args : list pyval) (kwargs : list (string * pyval)).

(** Every request a run makes to the cache names the derived key, and the
    first thing a run does is to ask for it. *)
Lemma wrapper_requests id w :
  key_identifier args kwargs = Return id ->
  exists o w1 t,
    wrapper REDIS ttl namespace func args kwargs w =
      (o, w1, CacheGet (cache_key_of namespace id) :: t) /\
    Forall (fun ev => forall k, event_key ev = Some k -> k = cache_key_of namespace id) t.
Proof.
  intros Hid. destruct w as [store env].
  destruct (cache_get (REDIS namespace) (cache_key_of namespace id) store)
    as [cached|e] eqn:Hget.
  - destruct (py_truthy cached) eqn:Htruth.
    + eexists _, _, _. split; [apply wrapper_hit; eassumption|].
      repeat constructor. intros k H. discriminate H.
    + pose proof (wrapper_miss REDIS ttl namespace func args kwargs id cached store env
                    Hid Hget Htruth) as Hrun.
      simpl in Hrun. destruct (func args kwargs env) as [[o env1] t].
      assert (Hout : Forall (fun ev => forall k, event_key ev = Some k ->
                               k = cache_key_of namespace id)
                       (miss_line (cache_key_of namespace id) :: Invoke args kwargs
                          :: map Out t)).
      { constructor; [intros k H; discriminate H|].
        constructor; [intros k H; discriminate H|]. apply event_key_out. }
      destruct o as [response|e|].
      * destruct (json_dumps response) as [payload|e].
        -- destruct (cache_set (REDIS namespace) _ payload ttl store) as [[[]|e] store1];
             eexists _, _, _; (split; [exact Hrun|]);
             change (miss_line (cache_key_of namespace id) :: Invoke args kwargs
                       :: map Out t ++ ?x)
               with ((miss_line (cache_key_of namespace id) :: Invoke args kwargs
                        :: map Out t) ++ x);
             apply Forall_app; (split; [exact Hout|]);
             repeat constructor; intros k H; simpl in H; congruence.
        -- eexists _, _, _. split; [exact Hrun | exact Hout].
      * eexists _, _, _. split; [exact Hrun | exact Hout].
      * eexists _, _, _. split; [exact Hrun | exact Hout].
  - eexists _, _, _. split; [apply wrapper_read_error; eassumption|]. constructor.
Qed.

Lemma key_identifier_source id :
  key_identifier args kwargs = Return id ->
  dict_get kwargs "user_id" = Some id \/ head args = Some id.
Proof.
  unfold key_identifier. destruct (dict_get kwargs "user_id") as [v|]; simpl.
  - destruct (py_truthy v).
    + intros H. injection H as <-. left. reflexivity.
    + destruct args; intros H; [discriminate H|]. injection H as <-. right. reflexivity.
  - destruct args; intros H; [discriminate H|]. injection H as <-. right. reflexivity.
Qed.

Lemma key_identifier_fallback :
  py_truthy (default PNone (dict_get kwargs "user_id")) = false ->
  key_identifier args kwargs =
    match args with
    | a :: _ => Return a
    | [] => Raise (PyError (PyErr IndexError "tuple index out of range"))
    end.
Proof. intros H. unfold key_identifier. rewrite H. reflexivity. Qed.

(** C5.  Whenever an identifier is found, it is the [user_id] keyword
    argument or the first positional argument, and the key of every request
    to the cache is the namespace, a colon, the tag [user], a colon, and
    [str] of the identifier.  The key depends on nothing but the decoration
    and the arguments: it is the same from every state of the world. *)
Theorem cache_key_is_composed id :
  key_identifier args kwargs = Return id ->
  (dict_get kwargs "user_id" = Some id \/ head args = Some id) /\
  forall w, exists o w1 t,
    wrapper REDIS ttl namespace func args kwargs w =
      (o, w1, CacheGet (namespace +:+ ":" +:+ "user" +:+ ":" +:+ py_str id) :: t) /\
    Forall (fun ev => forall k, event_key ev = Some k ->
              k = namespace +:+ ":" +:+ "user" +:+ ":" +:+ py_str id) t.
Proof.
  intros Hid. split; [apply key_identifier_source, Hid|].
  intros w. apply (wrapper_requests id w Hid).
Qed.

(** C8, as the code has it.  A call without a [user_id] keyword argument
    and without a positional argument fails with the built-in [IndexError]
    of indexing an empty tuple, before the cache or the wrapped function is
    touched. *)
Theorem missing_identifier_raises_index_error w :
  dict_get kwargs "user_id" = None -> args = [] ->
  wrapper REDIS ttl namespace func args kwargs w =
    (Raise (PyError (PyErr IndexError "tuple index out of range")), w, []) /\
  exn_class_name (PyError (PyErr IndexError "tuple index out of range")) = "IndexError".
Proof.
  intros Hkw Hargs. split; [|reflexivity].
  apply wrapper_no_identifier. rewrite key_identifier_fallback; [|rewrite Hkw; reflexivity].
  rewrite Hargs. reflexivity.
Qed.

(** C9.  A [user_id] keyword argument that is falsy is passed over: the
    identifier is the first positional argument, and without one the call
    fails with the [IndexError] of indexing an empty tuple, before the
    cache or the wrapped function is touched. *)
Theorem falsy_keyword_is_passed_over v w :
  dict_get kwargs "user_id" = Some v -> py_truthy v = false ->
  (forall a rest, args = a :: rest ->
     key_identifier args kwargs = Return a /\
     exists o w1 t, wrapper REDIS ttl namespace func args kwargs w =
       (o, w1, CacheGet (cache_key_of namespace a) :: t)) /\
  (args = [] ->
     wrapper REDIS ttl namespace func args kwargs w =
       (Raise (PyError (PyErr IndexError "tuple index out of range")), w, [])).
Proof.
  intros Hkw Hfalsy.
  assert (Hid : py_truthy (default PNone (dict_get kwargs "user_id")) = false)
    by (rewrite Hkw; exact Hfalsy).
  apply key_identifier_fallback in Hid. split.
  - intros a rest Hargs. rewrite Hargs in Hid. rewrite <- Hargs in Hid.
    split; [exact Hid|].
    destruct (wrapper_requests a w Hid) as (o & w1 & t & Hrun & _). eauto.
  - intros Hargs. rewrite Hargs in Hid. rewrite <- Hargs in Hid.
    apply wrapper_no_identifier, Hid.
Qed.

(** C10.  A stored value that is falsy counts as a miss: the run reports
    the miss and invokes the wrapped function, and when that returns and
    the write succeeds, the entry is written anew and the fresh result is
    returned. *)
Theorem falsy_entry_is_a_miss id payload store env :
  key_identifier args kwargs = Return id ->
  cache_get (REDIS namespace) (cache_key_of namespace id) store = Ok payload ->
  py_truthy payload = false ->
  (exists o w1 t,
     wrapper REDIS ttl namespace func args kwargs (store, env) =
       (o, w1, CacheGet (cache_key_of namespace id) :: miss_line (cache_key_of namespace id)
               :: Invoke args kwargs :: t)) /\
  (forall response env1 t0 fresh store1,
     func args kwargs env = (Return response, env1, t0) ->
     json_dumps response = Ok fresh ->
     cache_set (REDIS namespace) (cache_key_of namespace id) fresh ttl store = (Ok tt, store1) ->
     wrapper REDIS ttl namespace func args kwargs (store, env) =
       (Return response, (store1, env1),
        CacheGet (cache_key_of namespace id) :: miss_line (cache_key_of namespace id)
        :: Invoke args kwargs :: map Out t0
        ++ [CacheSet (cache_key_of namespace id) fresh ttl;
            stored_line (cache_key_of namespace id) ttl])).
Proof.
  intros Hid Hget Hfalsy.
  pose proof (wrapper_miss REDIS ttl namespace func args kwargs id payload store env
                Hid Hget Hfalsy) as Hrun.
  simpl in Hrun. split.
  - destruct (func args kwargs env) as [[o env1] t]. destruct o as [response|e|].
    + destruct (json_dumps response) as [fresh|e].
      * destruct (cache_set (REDIS namespace) _ fresh ttl store) as [[[]|e] store1];
          eexists _, _, _; exact Hrun.
      * eexists _, _, _; exact Hrun.
    + eexists _, _, _; exact Hrun.
    + eexists _, _, _; exact Hrun.
  - intros response env1 t0 fresh store1 Hfunc Hdumps Hset.
    rewrite Hfunc, Hdumps, Hset in Hrun. exact Hrun.
Qed.
End KeyClaims.

(** ** Keys and namespaces *)

Lemma chars_app a b : chars (a +:+ b) = chars a ++ chars b.
Proof.
  unfold chars. induction a as [|c a IH]; simpl; [reflexivity|]. rewrite <- IH. reflexivity.
Qed.

Lemma chars_inj a b : chars a = chars b -> a = b.
Proof. intros H. rewrite <- (text_chars a), <- (text_chars b), H. reflexivity. Qed.

Lemma cache_key_of_inj ns1 ns2 id : cache_key_of ns1 id = cache_key_of ns2 id -> ns1 = ns2.
Proof.
  unfold cache_key_of. intros H. apply (f_equal chars) in H.
  rewrite !chars_app in H. apply app_inv_tail in H. apply chars_inj, H.
Qed.

(** The keys the client sends to the server for one identifier under two
    namespaces differ as well. *)
Lemma build_key_cache_key_inj ns1 ns2 id :
  Redis.build_key ns1 (cache_key_of ns1 id) = Redis.build_key ns2 (cache_key_of ns2 id) ->
  ns1 = ns2.
Proof.
  unfold Redis.build_key, cache_key_of. intros H.
  destruct (String.eqb_spec ns1 "") as [E1|N1]; destruct (String.eqb_spec ns2 "") as [E2|N2].
  - congruence.
  - exfalso. subst ns1. apply (f_equal chars) in H. rewrite !chars_app in H.
    apply (f_equal (@length ascii)) in H. rewrite !length_app in H. simpl in H. lia.
  - exfalso. subst ns2. apply (f_equal chars) in H. rewrite !chars_app in H.
    apply (f_equal (@length ascii)) in H. rewrite !length_app in H. simpl in H. lia.
  - apply (f_equal chars) in H. rewrite !chars_app in H.
    assert (Hlen : length (chars ns1) = length (chars ns2)).
    { apply (f_equal (@length ascii)) in H. rewrite !length_app in H. simpl in H. lia. }
    apply app_inj_1 in H as [H _]; [apply chars_inj, H | exact Hlen].
Qed.

Lemma redis_get_other_key ns1 ns2 k1 k2 value ttl srv :
  Redis.build_key ns1 k1 <> Redis.build_key ns2 k2 ->
  cache_get (Redis.REDIS ns2) k2 (snd (cache_set (Redis.REDIS ns1) k1 value ttl srv)) =
  cache_get (Redis.REDIS ns2) k2 srv.
Proof.
  intros Hne. simpl. destruct (Redis.write_fault srv); [reflexivity|].
  unfold Redis.SETEX. destruct (ttl <=? 0)%Z; [reflexivity|]. simpl.
  destruct (Redis.read_fault srv); [reflexivity|].
  unfold Redis.GET. simpl. rewrite lookup_insert_ne by exact Hne. reflexivity.
Qed.

(** An entry is read back as long as less than its time to live has passed,
    and is gone from then on. *)
Lemma redis_get_after_set namespace key value ttl dt srv :
  Redis.read_fault srv = None -> Redis.write_fault srv = None ->
  (0 < ttl)%Z ->
  cache_get (Redis.REDIS namespace) key
    (Redis.elapse dt (snd (cache_set (Redis.REDIS namespace) key value ttl srv))) =
  Ok (if (dt <? ttl)%Z then PStr value else PNone).
Proof.
  intros Hr Hw Httl. simpl. rewrite Hw. unfold Redis.SETEX.
  destruct (Z.leb_spec ttl 0); [lia|]. simpl. rewrite Hr.
  unfold Redis.GET. simpl. rewrite lookup_insert_eq.
  destruct (Z.ltb_spec dt ttl), (Z.ltb_spec (Redis.clock srv + dt) (Redis.clock srv + ttl));
    (reflexivity || lia).
Qed.

Section Stores.
Context {Store Env : Type}.
Variable REDIS : string -> Cache Store.

(** A run leaves the store as it found it or as one write under the derived
    key made it. *)
Lemma wrapper_final_store ttl namespace (func : producer Env) args kwargs id store env :
  key_identifier args kwargs = Return id ->
  exists o w1 t,
    wrapper REDIS ttl namespace func args kwargs (store, env) = (o, w1, t) /\
    (fst w1 = store \/
     exists payload,
       fst w1 = snd (cache_set (REDIS namespace) (cache_key_of namespace id) payload ttl store)).
Proof.
  intros Hid.
  destruct (cache_get (REDIS namespace) (cache_key_of namespace id) store)
    as [cached|e] eqn:Hget.
  - destruct (py_truthy cached) eqn:Htruth.
    + eexists _, _, _. split; [apply wrapper_hit; eassumption|]. left. reflexivity.
    + pose proof (wrapper_miss REDIS ttl namespace func args kwargs id cached store env
                    Hid Hget Htruth) as Hrun.
      simpl in Hrun. destruct (func args kwargs env) as [[o env1] t].
      destruct o as [response|e|].
      * destruct (json_dumps response) as [payload|e].
        -- destruct (cache_set (REDIS namespace) _ payload ttl store) as [[[]|e] store1] eqn:Hset;
             eexists _, _, _; (split; [exact Hrun|]); right; exists payload;
             rewrite Hset; reflexivity.
        -- eexists _, _, _. split; [exact Hrun|]. left. reflexivity.
      * eexists _, _, _. split; [exact Hrun|]. left. reflexivity.
      * eexists _, _, _. split; [exact Hrun|]. left. reflexivity.
  - eexists _, _, _. split; [apply wrapper_read_error; eassumption|]. left. reflexivity.
Qed.
End Stores.

(** C7.  For two different namespaces and one identifier the derived keys
    differ, and a run of the decorator under one namespace leaves what the
    cache answers for that identifier under the other namespace as it was:
    an entry written under one is never read back under the other. *)
Theorem namespaces_do_not_collide ns1 ns2 id :
  ns1 <> ns2 ->
  cache_key_of ns1 id <> cache_key_of ns2 id /\
  forall {Env : Type} ttl (func : producer Env) args kwargs srv env,
    key_identifier args kwargs = Return id ->
    exists o w1 t,
      wrapper Redis.REDIS ttl ns1 func args kwargs (srv, env) = (o, w1, t) /\
      cache_get (Redis.REDIS ns2) (cache_key_of ns2 id) (fst w1) =
      cache_get (Redis.REDIS ns2) (cache_key_of ns2 id) srv.
Proof.
  intros Hne. split.
  - intros H. apply Hne, (cache_key_of_inj _ _ _ H).
  - intros Env ttl func args kwargs srv env Hid.
    destruct (wrapper_final_store Redis.REDIS ttl ns1 func args kwargs id srv env Hid)
      as (o & w1 & t & Hrun & Hstore).
    exists o, w1, t. split; [exact Hrun|].
    destruct Hstore as [-> | [payload ->]]; [reflexivity|].
    apply redis_get_other_key. intros H. apply Hne, (build_key_cache_key_inj _ _ _ H).
Qed.

(** Over the Redis-like store the written entry is what the store answers
    with for as long as less than the time to live has passed: within that
    window the second call is served from the cache. *)
Lemma second_call_within_ttl (Env : Type) ttl namespace (func : producer Env) args kwargs
    id srv env env1 env2 response t dt :
  Redis.read_fault srv = None -> Redis.write_fault srv = None ->
  (0 < ttl)%Z -> (dt < ttl)%Z ->
  key_identifier args kwargs = Return id ->
  py_truthy (Redis.GET (Redis.build_key namespace (cache_key_of namespace id)) srv) = false ->
  func args kwargs env = (Return response, env1, t) ->
  json_safe response = true ->
  exists srv1 t1 t2,
    wrapper Redis.REDIS ttl namespace func args kwargs (srv, env) =
      (Return response, (srv1, env1), t1) /\
    wrapper Redis.REDIS ttl namespace func args kwargs (Redis.elapse dt srv1, env2) =
      (Return response, (Redis.elapse dt srv1, env2), t2) /\
    invocations (t1 ++ t2) = 1%nat.
Proof.
  intros Hr Hw Httl Hdt Hid Hmiss Hfunc Hsafe.
  destruct (json_loads_dumps response Hsafe) as (payload & Hdumps & _).
  pose proof (redis_get_after_set namespace (cache_key_of namespace id) payload ttl dt srv
                Hr Hw Httl) as Hback.
  destruct (Z.ltb_spec dt ttl); [|lia].
  destruct (cache_set (Redis.REDIS namespace) (cache_key_of namespace id) payload ttl srv)
    as [written srv1] eqn:Hset.
  assert (written = Ok tt) as ->.
  { simpl in Hset. rewrite Hw in Hset. unfold Redis.SETEX in Hset.
    destruct (Z.leb_spec ttl 0); [lia|]. injection Hset as <- _. reflexivity. }
  exists srv1.
  apply (miss_then_hit Redis.REDIS ttl namespace func args kwargs id
           (Redis.GET (Redis.build_key namespace (cache_key_of namespace id)) srv)
           srv srv1 (Redis.elapse dt srv1) env env1 env2 response payload t);
    try assumption.
  simpl. rewrite Hr. reflexivity.
Qed.

(** From the end of that window on the entry is gone, and the call goes to
    the producer again. *)
Lemma call_after_ttl_invokes_again (Env : Type) ttl namespace (func : producer Env) args kwargs
    id srv value env dt :
  Redis.read_fault srv = None -> Redis.write_fault srv = None ->
  (0 < ttl)%Z -> (ttl <= dt)%Z ->
  key_identifier args kwargs = Return id ->
  exists o w1 t,
    wrapper Redis.REDIS ttl namespace func args kwargs
      (Redis.elapse dt
         (snd (cache_set (Redis.REDIS namespace) (cache_key_of namespace id) value ttl srv)),
       env) = (o, w1, t) /\
    invocations t = 1%nat.
Proof.
  intros Hr Hw Httl Hdt Hid.
  pose proof (redis_get_after_set namespace (cache_key_of namespace id) value ttl dt srv
                Hr Hw Httl) as Hgone.
  destruct (Z.ltb_spec dt ttl); [lia|].
  pose proof (wrapper_miss Redis.REDIS ttl namespace func args kwargs id PNone _ env
                Hid Hgone eq_refl) as Hrun.
  cbv zeta in Hrun.
  destruct (func args kwargs env) as [[o env1] t0].
  destruct o as [response|e|].
  - destruct (json_dumps response) as [payload|e].
    + destruct (cache_set (Redis.REDIS namespace) (cache_key_of namespace id) payload ttl _)
        as [[[]|e] srv1];
        eexists _, _, _; (split; [exact Hrun | count]).
    + eexists _, _, _. split; [exact Hrun | count].
  - eexists _, _, _. split; [exact Hrun | count].
  - eexists _, _, _. split; [exact Hrun | count].
Qed.

(** Keys under two namespaces can coincide when the identifiers differ and
    are texts that contain the tag themselves. *)
Example different_identifiers_can_collide :
  cache_key_of "a" (PStr "b:user:c") = cache_key_of "a:user:b" (PStr "c").
Proof. reflexivity. Qed.

Lemma split_at_first {A} (c : A) l1 r1 l2 r2 :
  c ∉ l1 -> c ∉ l2 -> l1 ++ c :: r1 = l2 ++ c :: r2 -> l1 = l2 /\ r1 = r2.
Proof.
  revert l2. induction l1 as [|x l1 IH]; intros [|y l2] H1 H2 E; simpl in E.
  - injection E as <-. split; reflexivity.
  - injection E as -> _. exfalso. apply H2. left.
  - injection E as -> _. exfalso. apply H1. left.
  - injection E as -> E. destruct (IH l2) as [-> ->]; try assumption; [| |split; reflexivity].
    + intros Hin. apply H1. right. exact Hin.
    + intros Hin. apply H2. right. exact Hin.
Qed.

Lemma uint_chars_no_colon d : ":"%char ∉ uint_chars d.
Proof.
  induction d; simpl; intros H; try (apply elem_of_cons in H as [H|H]; [discriminate H|]);
    try (apply IHd, H). apply elem_of_nil in H. exact H.
Qed.

Lemma int_chars_no_colon n : ":"%char ∉ int_chars n.
Proof.
  unfold int_chars. destruct (Z.to_int n) as [d|d].
  - apply uint_chars_no_colon.
  - intros H. apply elem_of_cons in H as [H|H]; [discriminate H|].
    exact (uint_chars_no_colon d H).
Qed.

(** With integers for identifiers, as the route has them, a key determines
    its namespace and its identifier: keys under two namespaces never
    coincide, whichever the identifiers. *)
Lemma int_keys_never_collide ns1 ns2 n1 n2 :
  cache_key_of ns1 (PInt n1) = cache_key_of ns2 (PInt n2) -> ns1 = ns2 /\ n1 = n2.
Proof.
  unfold cache_key_of. intros H. apply (f_equal chars) in H.
  rewrite !chars_app in H. simpl in H. unfold py_repr in H. rewrite !chars_text in H.
  apply (f_equal (@rev ascii)) in H. rewrite !rev_app_distr in H. simpl in H.
  rewrite <- !app_assoc in H. simpl in H.
  apply split_at_first in H as [Hd Hns].
  - split.
    + injection Hns as Hns. apply chars_inj.
      rewrite <- (rev_involutive (chars ns1)), <- (rev_involutive (chars ns2)), Hns.
      reflexivity.
    + apply (f_equal (@rev ascii)) in Hd. rewrite !rev_involutive in Hd.
      assert (Hz : forall n, Z.of_int (Z.to_int n) = n) by apply DecimalZ.of_to.
      assert (Hu : forall a b, uint_chars a = uint_chars b -> a = b).
      { intros a b E. rewrite <- (chars_uint_chars a), <- (chars_uint_chars b), E.
        reflexivity. }
      rewrite <- (Hz n1), <- (Hz n2). f_equal.
      unfold int_chars in Hd.
      destruct (Z.to_int n1) as [d1|d1], (Z.to_int n2) as [d2|d2].
      * f_equal. apply Hu, Hd.
      * exfalso. destruct d1; simpl in Hd; discriminate Hd.
      * exfalso. destruct d2; simpl in Hd; discriminate Hd.
      * injection Hd as Hd. f_equal. apply Hu, Hd.
  - intros Hin. apply list_elem_of_In, in_rev, list_elem_of_In in Hin.
    exact (int_chars_no_colon n1 Hin).
  - intros Hin. apply list_elem_of_In, in_rev, list_elem_of_In in Hin.
    exact (int_chars_no_colon n2 Hin).
Qed.

(** ** The application's producer *)

(** Whatever [get_user_details] returns is a value JSON has a shape for. *)
Lemma get_user_details_json_safe args kwargs env r env1 t :
  get_user_details args kwargs env = (Return r, env1, t) -> json_safe r = true.
Proof.
  unfold get_user_details.
  destruct (bind_user_id args kwargs) as [user_id|e]; [|discriminate].
  destruct (negb (asyncio_bound env)); [discriminate|].
  destruct (py_dict_get users_db user_id) as [found|e] eqn:Hget; [|discriminate].
  destruct (negb (py_truthy (default PNone found))) eqn:Htruth; [discriminate|].
  intros H. injection H as <- _ _.
  unfold py_dict_get in Hget.
  assert (Hfound : found = snd <$> find (fun kv => key_eqb (fst kv) user_id) users_db).
  { destruct user_id; try discriminate Hget; injection Hget as <-; reflexivity. }
  rewrite Hfound. simpl.
  repeat match goal with
         | |- context [if ?b then _ else _] => destruct b
         end; reflexivity.
Qed.

(** ** C6 *)

(** C6.  For every value JSON has a shape for, which covers the records the
    producer returns, serialization succeeds and deserializing the text gives
    the value back: [json.loads(json.dumps(x)) == x]. *)
Theorem json_round_trip x :
  json_safe x = true ->
  exists payload, json_dumps x = Ok payload /\ json_loads (PStr payload) = Return x.
Proof. apply json_loads_dumps. Qed.

(** A dictionary with a key that is not a string does not come back as it
    was: the key comes back as its text. *)
Example int_key_comes_back_as_str :
  json_loads (PStr (payload_of (PDict [(PInt 1, PNone)]))) =
    Return (PDict [(PStr "1", PNone)]).
Proof. reflexivity. Qed.

(** ** The claims at concrete calls *)


Lemma failed_write_fails_the_call_witness :
  (exists w1 t1,
     get_users 1 (Redis.outage_on_write Redis.empty, as_script) =
       (Raise (HTTPException 500
          "Error caching data: Error 111 connecting to localhost:6379. Connection refused."),
        w1, t1) /\
     invocations t1 = 1%nat) /\
  (exists w1 t1,
     wrapper Redis.REDIS 120 "users" raw_bytes [PInt 1] [] (Redis.empty, tt) =
       (Raise (HTTPException 500
          "Error caching data: Object of type bytes is not JSON serializable"), w1, t1) /\
     invocations t1 = 1%nat).
Proof.
  split.
  - apply (failed_write_fails_the_call Redis.REDIS 120 "users" get_user_details
             [] [("user_id", PInt 1)] (PInt 1) PNone (Redis.outage_on_write Redis.empty)
             as_script as_script alice [Print "Simulating a slow database lookup..."; Sleep 1]
             Redis.connection_refused);
      try reflexivity.
    right. exists (payload_of alice), (Redis.outage_on_write Redis.empty).
    repeat split; reflexivity.
  - apply (failed_write_fails_the_call Redis.REDIS 120 "users" raw_bytes
             [PInt 1] [] (PInt 1) PNone Redis.empty tt tt (PBytes "x") []
             (not_serializable "bytes"));
      try reflexivity.
    left. reflexivity.
Defined.

Lemma producer_failure_propagates_witness :
  (exists t1,
     get_users 99 (Redis.empty, as_script) =
       (Raise (HTTPException 404 "User not found"), (Redis.empty, as_script), t1) /\
     writes t1 = 0%nat /\ invocations t1 = 1%nat) /\
  (forall env2, exists o w2 t2,
     get_users 99 (Redis.empty, env2) = (o, w2, t2) /\ invocations t2 = 1%nat).
Proof.
  apply (producer_failure_propagates Redis.REDIS 120 "users" get_user_details
           [] [("user_id", PInt 99)] (PInt 99) PNone Redis.empty as_script as_script
           (HTTPException 404 "User not found")
           [Print "Simulating a slow database lookup..."; Sleep 1]);
    reflexivity.
Defined.

Lemma cache_key_is_composed_witness :
  (dict_get [("user_id", PInt 1)] "user_id" = Some (PInt 1) \/
   head (@nil pyval) = Some (PInt 1)) /\
  forall w, exists o w1 t,
    get_users 1 w = (o, w1, CacheGet "users:user:1" :: t) /\
    Forall (fun ev => forall k, event_key ev = Some k -> k = "users:user:1") t.
Proof.
  apply (cache_key_is_composed Redis.REDIS 120 "users" get_user_details
           [] [("user_id", PInt 1)] (PInt 1)).
  reflexivity.
Defined.

Lemma json_round_trip_witness :
  exists payload, json_dumps alice = Ok payload /\ json_loads (PStr payload) = Return alice.
Proof. apply (json_round_trip alice). reflexivity. Defined.

Lemma namespaces_do_not_collide_witness :
  cache_key_of "users" (PInt 1) <> cache_key_of "orders" (PInt 1) /\
  exists o w1 t,
    get_users 1 (Redis.empty, as_script) = (o, w1, t) /\
    cache_get (Redis.REDIS "orders") (cache_key_of "orders" (PInt 1)) (fst w1) =
    cache_get (Redis.REDIS "orders") (cache_key_of "orders" (PInt 1)) Redis.empty.
Proof.
  destruct (namespaces_do_not_collide "users" "orders" (PInt 1)) as [Hkeys Hruns].
  - discriminate.
  - split; [exact Hkeys|].
    apply (Hruns globals 120%Z get_user_details [] [("user_id", PInt 1)] Redis.empty as_script).
    reflexivity.
Defined.

(** C8, as stated, fails at the call without any argument: what it raises is
    an [IndexError], and no exception named [InvalidInvocation]. *)
Lemma missing_identifier_is_not_invalid_invocation :
  ~ (exists e,
       fst (fst (cached_get_user_details [] [] (Redis.empty, as_script))) = Raise e /\
       exn_class_name e = "InvalidInvocation").
Proof.
  intros (e & Hrun & Hname). vm_compute in Hrun. injection Hrun as <-.
  discriminate Hname.
Qed.

Lemma missing_identifier_raises_index_error_witness :
  cached_get_user_details [] [] (Redis.empty, as_script) =
    (Raise (PyError (PyErr IndexError "tuple index out of range")), (Redis.empty, as_script), []) /\
  exn_class_name (PyError (PyErr IndexError "tuple index out of range")) = "IndexError".
Proof.
  apply (missing_identifier_raises_index_error Redis.REDIS 120 "users" get_user_details
           [] [] (Redis.empty, as_script)); reflexivity.
Defined.

Lemma falsy_keyword_is_passed_over_witness :
  (forall a rest, [PInt 2] = a :: rest ->
     key_identifier [PInt 2] [("user_id", PInt 0)] = Return a /\
     exists o w1 t,
       wrapper Redis.REDIS 120 "users" get_user_details [PInt 2] [("user_id", PInt 0)]
         (Redis.empty, as_script) = (o, w1, CacheGet (cache_key_of "users" a) :: t)) /\
  get_users 0 (Redis.empty, as_script) =
    (Raise (PyError (PyErr IndexError "tuple index out of range")), (Redis.empty, as_script), []).
Proof.
  split.
  - apply (falsy_keyword_is_passed_over Redis.REDIS 120 "users" get_user_details
             [PInt 2] [("user_id", PInt 0)] (PInt 0) (Redis.empty, as_script)); reflexivity.
  - apply (falsy_keyword_is_passed_over Redis.REDIS 120 "users" get_user_details
             [] [("user_id", PInt 0)] (PInt 0) (Redis.empty, as_script)); reflexivity.
Defined.

Lemma falsy_entry_is_a_miss_witness :
  (exists o w1 t,
     get_users 1 (blank_cached, as_script) =
       (o, w1, CacheGet "users:user:1" :: miss_line "users:user:1"
               :: Invoke [] [("user_id", PInt 1)] :: t)) /\
  get_users 1 (blank_cached, as_script) =
    (Return alice, (alice_cached, as_script),
     CacheGet "users:user:1" :: miss_line "users:user:1"
     :: Invoke [] [("user_id", PInt 1)]
     :: map Out [Print "Simulating a slow database lookup..."; Sleep 1]
     ++ [CacheSet "users:user:1" (payload_of alice) 120; stored_line "users:user:1" 120]).
Proof.
  destruct (falsy_entry_is_a_miss Redis.REDIS 120 "users" get_user_details
              [] [("user_id", PInt 1)] (PInt 1) (PStr "") blank_cached as_script)
    as [Hmiss Hwrite]; try reflexivity.
  split; [exact Hmiss|].
  apply (Hwrite alice as_script [Print "Simulating a slow database lookup..."; Sleep 1]
           (payload_of alice) alice_cached); reflexivity.
Defined.

(** ** Further examples *)

(** A truthy identifier gives the same key whether it is passed by position
    or by keyword. *)
Lemma positional_and_keyword_agree v :
  py_truthy v = true ->
  key_identifier [v] [] = Return v /\ key_identifier [] [("user_id", v)] = Return v.
Proof. intros H. unfold key_identifier. simpl. rewrite H. split; reflexivity. Qed.

(** Once the time to live has passed, the entry is gone and the call goes to
    the producer again. *)
Example expired_entry_is_fetched_again :
  exists w1 t,
    get_users 1 (Redis.elapse 120 alice_cached, as_script) = (Return alice, w1, t) /\
    invocations t = 1%nat.
Proof. eexists _, _. split; reflexivity. Qed.

(** A stored value that is not JSON makes the hit fail in [json.loads]. *)
Example broken_entry_fails_the_call :
  fst (fst (get_users 1
    (snd (cache_set (Redis.REDIS "users") "users:user:1" "{" 120 Redis.empty), as_script))) =
  Raise JSONDecodeError.
Proof. reflexivity. Qed.

(** * Further properties *)

(** ** Every run of the wrapper *)

Lemma steps_out t : steps (map Out t) = [].
Proof. induction t as [|e t IH]; [reflexivity | exact IH]. Qed.

Lemma steps_app t1 t2 : steps (t1 ++ t2) = steps t1 ++ steps t2.
Proof. unfold steps. apply List.filter_app. Qed.

Section AllRuns.
Context {Store Env : Type}.
Variable REDIS : string -> Cache Store.
Variables (ttl : Z) (namespace : string) (func : producer Env).
Variables (args : list pyval) (kwargs : list (string * pyval)).

(** Every run, whatever the arguments and the world: how it ends, what it
    leaves, and what it did. *)
Lemma wrapper_cases store env :
  (exists e,
     key_identifier args kwargs = Raise e /\
     wrapper REDIS ttl namespace func args kwargs (store, env) = (Raise e, (store, env), []))
  \/ (exists id,
        key_identifier args kwargs = Return id /\
        let key := cache_key_of namespace id in
        (exists e,
           cache_get (REDIS namespace) key store = Err e /\
           wrapper REDIS ttl namespace func args kwargs (store, env) =
             (Raise (PyError e), (store, env), [CacheGet key]))
        \/ (exists cached,
              cache_get (REDIS namespace) key store = Ok cached /\
              py_truthy cached = true /\
              wrapper REDIS ttl namespace func args kwargs (store, env) =
                (json_loads cached, (store, env), [CacheGet key; hit_line key]))
        \/ (exists cached o env1 t,
              cache_get (REDIS namespace) key store = Ok cached /\
              py_truthy cached = false /\
              func args kwargs env = (o, env1, t) /\
              let called := CacheGet key :: miss_line key :: Invoke args kwargs :: map Out t in
              match o with
              | Return response =>
                  match json_dumps response with
                  | Err e => wrapper REDIS ttl namespace func args kwargs (store, env) =
                    (Raise (surfaced e), (store, env1), called)
                  | Ok payload =>
                      match cache_set (REDIS namespace) key payload ttl store with
                      | (Err e, store1) =>
                          wrapper REDIS ttl namespace func args kwargs (store, env) =
                            (Raise (surfaced e), (store1, env1),
                             called ++ [CacheSet key payload ttl])
                      | (Ok _, store1) =>
                          wrapper REDIS ttl namespace func args kwargs (store, env) =
                            (Return response, (store1, env1),
                             called ++ [CacheSet key payload ttl; stored_line key ttl])
                      end
                  end
              | Raise e => wrapper REDIS ttl namespace func args kwargs (store, env) =
                (Raise e, (store, env1), called)
              | Unmodelled => wrapper REDIS ttl namespace func args kwargs (store, env) =
                (Unmodelled, (store, env1), called)
              end)).
Proof.
  destruct (key_identifier args kwargs) as [id|e|] eqn:Hid.
  - right. exists id. split; [reflexivity|]. cbv zeta.
    destruct (cache_get (REDIS namespace) (cache_key_of namespace id) store)
      as [cached|e] eqn:Hget.
    + destruct (py_truthy cached) eqn:Htruth.
      * right. left. exists cached. split; [reflexivity|]. split; [exact Htruth|].
        apply (wrapper_hit REDIS ttl namespace func args kwargs id cached (store, env));
          assumption.
      * right. right.
        pose proof (wrapper_miss REDIS ttl namespace func args kwargs id cached store env
                      Hid Hget Htruth) as Hrun.
        cbv zeta in Hrun.
        destruct (func args kwargs env) as [[o env1] t].
        exists cached, o, env1, t.
        split; [reflexivity|]. split; [exact Htruth|]. split; [reflexivity|]. cbv zeta.
        destruct o as [response|e|]; try exact Hrun.
        destruct (json_dumps response) as [payload|e]; [|exact Hrun].
        destruct (cache_set (REDIS namespace) (cache_key_of namespace id) payload ttl store)
          as [[[]|e] store1]; exact Hrun.
    + left. exists e. split; [reflexivity|].
      apply (wrapper_read_error REDIS ttl namespace func args kwargs id e (store, env));
        assumption.
  - left. exists e. split; [reflexivity|]. apply wrapper_no_identifier, Hid.
  - exfalso. unfold key_identifier in Hid.
    destruct (py_truthy (default PNone (dict_get kwargs "user_id"))); [discriminate Hid|].
    destruct args; discriminate Hid.
Qed.

(** X1.  Whatever the arguments and the world, a run does at most three
    things, each at most once and in this order: it asks the cache for the
    key, it calls the wrapped function with the arguments it was given,
    and it asks the cache to store a text under the same key with the
    decoration's time to live.  There is no retry and no second request. *)
Theorem wrapper_steps_in_order store env :
  exists key payload,
    steps (snd (wrapper REDIS ttl namespace func args kwargs (store, env))) `prefix_of`
      [CacheGet key; Invoke args kwargs; CacheSet key payload ttl].
Proof.
  destruct (wrapper_cases store env)
    as [(e & _ & Hrun) | (id & _ & [(e & _ & Hrun) | [(c & _ & _ & Hrun) | Hmiss]])].
  - exists "", "". rewrite Hrun. eexists. reflexivity.
  - exists (cache_key_of namespace id), "". rewrite Hrun. eexists. reflexivity.
  - exists (cache_key_of namespace id), "". rewrite Hrun. eexists. reflexivity.
  - destruct Hmiss as (cached & o & env1 & t & _ & _ & _ & Hrun). cbv zeta in Hrun.
    assert (Hcalled : steps (CacheGet (cache_key_of namespace id)
                             :: miss_line (cache_key_of namespace id)
                             :: Invoke args kwargs :: map Out t)
                      = [CacheGet (cache_key_of namespace id); Invoke args kwargs]).
    { unfold steps. simpl. f_equal. f_equal. apply steps_out. }
    destruct o as [response|e|].
    + destruct (json_dumps response) as [payload|e].
      * exists (cache_key_of namespace id), payload.
        destruct (cache_set (REDIS namespace) (cache_key_of namespace id) payload ttl store)
          as [[[]|e] store1]; rewrite Hrun; cbn [snd]; rewrite steps_app, Hcalled;
          exists []; reflexivity.
      * exists (cache_key_of namespace id), "". rewrite Hrun. cbn [snd]. rewrite Hcalled.
        eexists. reflexivity.
    + exists (cache_key_of namespace id), "". rewrite Hrun. cbn [snd]. rewrite Hcalled.
      eexists. reflexivity.
    + exists (cache_key_of namespace id), "". rewrite Hrun. cbn [snd]. rewrite Hcalled.
      eexists. reflexivity.
Qed.

(** X2.  When [cache.get] raises, the call fails with that very exception:
    the wrapped function is not called, nothing is written, and the world
    is left as it was.  A cache that cannot be read is not treated as a
    miss. *)
Theorem read_failure_fails_the_call id e store env :
  key_identifier args kwargs = Return id ->
  cache_get (REDIS namespace) (cache_key_of namespace id) store = Err e ->
  exists t,
    wrapper REDIS ttl namespace func args kwargs (store, env) =
      (Raise (PyError e), (store, env), t) /\
    invocations t = 0%nat /\ writes t = 0%nat.
Proof.
  intros Hid Hget. eexists. split.
  - apply (wrapper_read_error REDIS ttl namespace func args kwargs id e (store, env));
      assumption.
  - split; count.
Qed.

(** X3.  When the result of the wrapped function cannot be serialized, the
    cache is never asked to store anything and the store is left as it was;
    the function has run all the same, and its result is lost to the
    caller. *)
Theorem unserializable_result_is_not_written id cached store env env1 response t e :
  key_identifier args kwargs = Return id ->
  cache_get (REDIS namespace) (cache_key_of namespace id) store = Ok cached ->
  py_truthy cached = false ->
  func args kwargs env = (Return response, env1, t) ->
  json_dumps response = Err e ->
  exists t1,
    wrapper REDIS ttl namespace func args kwargs (store, env) =
      (Raise (http_500 e), (store, env1), t1) /\
    invocations t1 = 1%nat /\ writes t1 = 0%nat.
Proof.
  intros Hid Hget Hmiss Hfunc Hdumps.
  pose proof (wrapper_miss REDIS ttl namespace func args kwargs id cached store env
                Hid Hget Hmiss) as Hrun.
  cbv zeta in Hrun. rewrite Hfunc, Hdumps in Hrun. unfold surfaced in Hrun.
  rewrite (json_dumps_error_class _ _ Hdumps) in Hrun. simpl in Hrun.
  eexists. split; [exact Hrun|]. split; count.
Qed.

(** X4.  An exception of [cache.set] that is no [Exception], such as a
    cancellation, is not turned into an HTTP 500: the call fails with that
    very exception. *)
Theorem base_exception_passes_through id cached store store1 env env1 response payload t e :
  key_identifier args kwargs = Return id ->
  cache_get (REDIS namespace) (cache_key_of namespace id) store = Ok cached ->
  py_truthy cached = false ->
  func args kwargs env = (Return response, env1, t) ->
  json_dumps response = Ok payload ->
  cache_set (REDIS namespace) (cache_key_of namespace id) payload ttl store = (Err e, store1) ->
  is_Exception (err_class e) = false ->
  exists t1, wrapper REDIS ttl namespace func args kwargs (store, env) =
    (Raise (PyError e), (store1, env1), t1).
Proof.
  intros Hid Hget Hmiss Hfunc Hdumps Hset Hbase.
  pose proof (wrapper_miss REDIS ttl namespace func args kwargs id cached store env
                Hid Hget Hmiss) as Hrun.
  cbv zeta in Hrun. rewrite Hfunc, Hdumps, Hset in Hrun. unfold surfaced in Hrun.
  rewrite Hbase in Hrun. eexists. exact Hrun.
Qed.

(** X5.  A run leaves the store as it found it, unless the wrapped function
    returned a value that could be serialized: then the store is what one
    [cache.set] of that text under the derived key made of it.  Nothing
    else is ever written, and nothing is deleted. *)
Theorem store_changes_by_one_set_only store env :
  fst (snd (fst (wrapper REDIS ttl namespace func args kwargs (store, env)))) = store \/
  exists id response env1 t payload,
    key_identifier args kwargs = Return id /\
    func args kwargs env = (Return response, env1, t) /\
    json_dumps response = Ok payload /\
    fst (snd (fst (wrapper REDIS ttl namespace func args kwargs (store, env)))) =
      snd (cache_set (REDIS namespace) (cache_key_of namespace id) payload ttl store).
Proof.
  destruct (wrapper_cases store env)
    as [(e & _ & Hrun) | (id & Hid & [(e & _ & Hrun) | [(c & _ & _ & Hrun) | Hmiss]])];
    try (left; rewrite Hrun; reflexivity).
  destruct Hmiss as (cached & o & env1 & t & _ & _ & Hfunc & Hrun). cbv zeta in Hrun.
  destruct o as [response|e|]; try (left; rewrite Hrun; reflexivity).
  destruct (json_dumps response) as [payload|e] eqn:Hdumps;
    [|left; rewrite Hrun; reflexivity].
  right. exists id, response, env1, t, payload.
  split; [exact Hid|]. split; [exact Hfunc|]. split; [exact Hdumps|].
  destruct (cache_set (REDIS namespace) (cache_key_of namespace id) payload ttl store)
    as [[[]|e] store1]; rewrite Hrun; reflexivity.
Qed.

(** What a run asks the cache to store, and under which key. *)
Lemma wrapper_set_event store env k v ttl' :
  In (CacheSet k v ttl') (snd (wrapper REDIS ttl namespace func args kwargs (store, env))) ->
  exists id response env1 t,
    key_identifier args kwargs = Return id /\ k = cache_key_of namespace id /\
    ttl' = ttl /\
    func args kwargs env = (Return response, env1, t) /\ json_dumps response = Ok v.
Proof.
  assert (Hout : forall t, ~ In (CacheSet k v ttl') (map Out t)).
  { intros t. induction t as [|x t IH]; simpl; [tauto|]. intros [H|H]; [discriminate H|tauto]. }
  destruct (wrapper_cases store env)
    as [(e & _ & Hrun) | (id & Hid & [(e & _ & Hrun) | [(c & _ & _ & Hrun) | Hmiss]])].
  - rewrite Hrun. simpl. tauto.
  - rewrite Hrun. simpl. intros [H|H]; [discriminate H|tauto].
  - rewrite Hrun. simpl. intros [H|[H|H]]; try discriminate H. tauto.
  - destruct Hmiss as (cached & o & env1 & t & _ & _ & Hfunc & Hrun). cbv zeta in Hrun.
    assert (Hcalled : ~ In (CacheSet k v ttl')
                        (CacheGet (cache_key_of namespace id)
                         :: miss_line (cache_key_of namespace id)
                         :: Invoke args kwargs :: map Out t)).
    { simpl. intros [H|[H|[H|H]]]; try discriminate H. exact (Hout t H). }
    destruct o as [response|e|]; try (rewrite Hrun; cbn [snd]; intros H; tauto).
    destruct (json_dumps response) as [payload|e] eqn:Hdumps;
      [|rewrite Hrun; cbn [snd]; intros H; tauto].
    assert (Hlast : In (CacheSet k v ttl')
                      [CacheSet (cache_key_of namespace id) payload ttl;
                       stored_line (cache_key_of namespace id) ttl] ->
                    k = cache_key_of namespace id /\ ttl' = ttl /\ v = payload).
    { simpl. intros [H|[H|H]]; try discriminate H; [|tauto].
      injection H as <- <- <-. repeat split; reflexivity. }
    assert (Hgoal : k = cache_key_of namespace id /\ ttl' = ttl /\ v = payload ->
              exists id response env1 t,
                key_identifier args kwargs = Return id /\ k = cache_key_of namespace id /\
                ttl' = ttl /\
                func args kwargs env = (Return response, env1, t) /\
                json_dumps response = Ok v).
    { intros (-> & -> & ->). exists id, response, env1, t.
      split; [exact Hid|]. split; [reflexivity|]. split; [reflexivity|].
      split; [exact Hfunc | exact Hdumps]. }
    destruct (cache_set (REDIS namespace) (cache_key_of namespace id) payload ttl store)
      as [[[]|e] store1]; rewrite Hrun; cbn [snd]; intros H;
      apply in_app_or in H as [H|H]; try tauto; apply Hgoal, Hlast;
      simpl in H |- *; tauto.
Qed.

(** X6.  Whatever a run asks the cache to store is the JSON text of a value
    the wrapped function returned, it is not empty, and it is stored with
    the decoration's time to live: an entry the decorator wrote is never
    taken for a miss when it is read back. *)
Theorem stored_value_is_a_json_text store env k v ttl' :
  In (CacheSet k v ttl') (snd (wrapper REDIS ttl namespace func args kwargs (store, env))) ->
  ttl' = ttl /\ py_truthy (PStr v) = true /\
  exists response env1 t,
    func args kwargs env = (Return response, env1, t) /\ json_dumps response = Ok v.
Proof.
  intros H.
  destruct (wrapper_set_event store env k v ttl' H)
    as (id & response & env1 & t & _ & _ & -> & Hfunc & Hdumps).
  split; [reflexivity|]. split; [apply (json_dumps_truthy _ _ Hdumps)|]. eauto.
Qed.

(** X7.  A [user_id] keyword argument that is truthy decides the key, also
    when positional arguments are given: those play no part in the key. *)
Theorem truthy_keyword_decides_the_key v w :
  dict_get kwargs "user_id" = Some v -> py_truthy v = true ->
  key_identifier args kwargs = Return v /\
  exists o w1 t, wrapper REDIS ttl namespace func args kwargs w =
    (o, w1, CacheGet (cache_key_of namespace v) :: t).
Proof.
  intros Hkw Htruth.
  assert (Hid : key_identifier args kwargs = Return v).
  { unfold key_identifier. rewrite Hkw. simpl. rewrite Htruth. reflexivity. }
  split; [exact Hid|].
  destruct (wrapper_requests REDIS ttl namespace func args kwargs v w Hid)
    as (o & w1 & t & Hrun & _).
  eauto.
Qed.
End AllRuns.

(** ** What comes back from the cache *)

Lemma encode_key_coerced k kt :
  encode_key k = Ok kt -> kt = encode_basestring_ascii (coerced_key k).
Proof.
  destruct k as [ | [] | n | s | b | items | items ]; simpl; intros H;
    try discriminate H; injection H as <-; reflexivity.
Qed.

Lemma result_map_cons_inv {A B} (f : A -> result B) x l parts :
  result_map f (x :: l) = Ok parts ->
  exists p ps, f x = Ok p /\ result_map f l = Ok ps /\ parts = p :: ps.
Proof.
  simpl. destruct (f x) as [p|e]; simpl; [|discriminate].
  destruct (result_map f l) as [ps|e]; simpl; [|discriminate].
  intros H. injection H as <-. eauto.
Qed.

Lemma reads_back_as_safe v : json_safe v = true -> normalize v = v -> reads_back_as v.
Proof.
  intros Hsafe Hnorm cs E. rewrite Hnorm.
  destruct (encode_reads_back v Hsafe) as (cs' & E' & Hstart & Hscan).
  rewrite E in E'. injection E' as <-. split; assumption.
Qed.

Lemma array_items_encode_as items :
  Forall reads_back_as items ->
  forall parts, result_map encode items = Ok parts -> items <> [] ->
    starts_value (join (chars ", ") parts) /\
    forall fuel rest, (length (join (chars ", ") parts) < fuel)%nat ->
      array_items fuel (join (chars ", ") parts ++ "]"%char :: rest) =
        Parsed (map normalize items) false rest.
Proof.
  induction 1 as [|v items Hv _ IH]; intros parts Eparts Hne; [congruence|].
  apply result_map_cons_inv in Eparts as (p & ps & Ep & Eps & ->).
  destruct (Hv p Ep) as [Hstart Hscan].
  destruct items as [|v2 items].
  - simpl in Eps. injection Eps as <-. simpl. rewrite app_nil_r.
    split; [exact Hstart|]. intros [|fuel] rest Hlen; [lia|].
    simpl. rewrite Hscan; [reflexivity | lia | reflexivity].
  - destruct (IH ps Eps ltac:(congruence)) as [Hstart2 Hscan2].
    destruct ps as [|q ps]; [destruct Hstart2 as (? & ? & ? & _); discriminate|].
    split.
    + destruct Hstart as (c & cs' & -> & Hc). eexists _, _. split; [reflexivity | exact Hc].
    + intros [|fuel] rest Hlen; [lia|].
      rewrite length_join_cons2 in Hlen. rewrite join_cons2.
      remember (join (chars ", ") (q :: ps)) as tl eqn:Etl.
      change (map normalize (v :: v2 :: items))
        with (normalize v :: map normalize (v2 :: items)).
      remember (map normalize (v2 :: items)) as tail_values eqn:Etail.
      rewrite <- !app_assoc. simpl in Hlen |- *.
      rewrite Hscan; [ | lia | reflexivity]. simpl.
      rewrite skip_ws_starts by exact Hstart2.
      rewrite Hscan2 by lia. reflexivity.
Qed.

Lemma object_items_encode_as items :
  Forall (fun kv => reads_back_as (fst kv) /\ reads_back_as (snd kv)) items ->
  forall parts, result_map (encode_item encode) items = Ok parts -> items <> [] ->
    exists body, join (chars ", ") parts = dquote :: body /\
    forall fuel rest, (length body < fuel)%nat ->
      object_items fuel (body ++ "}"%char :: rest) =
        Parsed (map (fun kv => (coerced_key (fst kv), normalize (snd kv))) items) false rest.
Proof.
  induction 1 as [|[k v] items [_ Hv] _ IH]; intros parts Eparts Hne; [congruence|].
  apply result_map_cons_inv in Eparts as (p & ps & Ep & Eps & ->).
  unfold encode_item in Ep. simpl in Ep, Hv.
  destruct (encode_key k) as [kt|e] eqn:Ek; simpl in Ep; [|discriminate Ep].
  destruct (encode v) as [vt|e] eqn:Ev; simpl in Ep; [|discriminate Ep].
  injection Ep as <-. apply encode_key_coerced in Ek. subst kt.
  destruct (Hv vt Ev) as [Hstart Hscan].
  unfold encode_basestring_ascii.
  remember (flat_map escape_char (chars (coerced_key k))) as esc eqn:Eesc.
  assert (Hkey : forall tail,
            scanstring (esc ++ dquote :: tail) = Parsed (coerced_key k) false tail).
  { intros tail. rewrite Eesc, scanstring_escaped, text_chars. reflexivity. }
  destruct items as [|kv2 items].
  - simpl in Eps. injection Eps as <-.
    exists (esc ++ [dquote] ++ chars ": " ++ vt). split.
    { simpl. rewrite app_nil_r, <- !app_assoc. reflexivity. }
    intros [|fuel] rest Hlen; [lia|].
    repeat (rewrite length_app in Hlen; simpl in Hlen).
    rewrite <- !app_assoc. simpl. rewrite Hkey. simpl.
    rewrite skip_ws_starts by exact Hstart.
    rewrite Hscan; [reflexivity | lia | reflexivity].
  - destruct (IH ps Eps ltac:(congruence)) as (body2 & Ebody2 & Hscan2).
    destruct ps as [|q ps]; [discriminate Ebody2|].
    exists (esc ++ [dquote] ++ chars ": " ++ vt ++ chars ", " ++ dquote :: body2). split.
    { rewrite join_cons2, Ebody2. simpl. rewrite <- !app_assoc. reflexivity. }
    intros [|fuel] rest Hlen; [lia|].
    repeat (rewrite length_app in Hlen; simpl in Hlen).
    change (map (fun kv => (coerced_key (fst kv), normalize (snd kv))) ((k, v) :: kv2 :: items))
      with ((coerced_key k, normalize v)
            :: map (fun kv => (coerced_key (fst kv), normalize (snd kv))) (kv2 :: items)).
    remember (map (fun kv => (coerced_key (fst kv), normalize (snd kv))) (kv2 :: items))
      as tail_pairs eqn:Etail.
    rewrite <- !app_assoc. simpl. rewrite Hkey. simpl.
    rewrite skip_ws_starts by exact Hstart.
    rewrite Hscan; [ | lia | reflexivity]. simpl.
    rewrite Hscan2 by lia. reflexivity.
Qed.

Lemma encode_reads_back_as v : reads_back_as v.
Proof.
  induction v as [ | b | n | s | b | items IH | items IH ] using pyval_ind;
    try (apply reads_back_as_safe; reflexivity).
  - intros cs E. discriminate E.
  - intros cs E. cbn [encode] in E.
    destruct (result_map encode items) as [parts|e] eqn:Eparts; cbn [result_bind] in E;
      [|discriminate E].
    injection E as <-. split; [eexists _, _; split; reflexivity|].
    intros [|fuel] rest Hlen _; [simpl in Hlen; lia|].
    destruct items as [|v items].
    + simpl in Eparts. injection Eparts as <-. reflexivity.
    + destruct (array_items_encode_as (v :: items) IH parts Eparts ltac:(congruence))
        as [Hstart Hscan].
      simpl (chars ", ") in *.
      remember (join _ parts) as body eqn:Ebody in *.
      change (normalize (PList (v :: items))) with (PList (map normalize (v :: items))).
      remember (map normalize (v :: items)) as values eqn:Evalues.
      simpl in Hlen. rewrite length_app in Hlen. simpl in Hlen.
      rewrite <- app_comm_cons, <- app_assoc. simpl.
      rewrite skip_ws_starts by exact Hstart.
      destruct Hstart as (c & cs' & Ejoin & Hc). rewrite Ejoin in Hscan, Hlen |- *.
      simpl. unfold value_start in Hc. apply andb_true_iff in Hc as [_ Hc].
      apply negb_true_iff in Hc. rewrite Hc.
      change (c :: cs' ++ "]"%char :: rest) with ((c :: cs') ++ "]"%char :: rest).
      rewrite Hscan by (simpl in Hlen |- *; lia). reflexivity.
  - intros cs E. cbn [encode] in E.
    destruct (result_map (encode_item encode) items) as [parts|e] eqn:Eparts;
      cbn [result_bind] in E; [|discriminate E].
    injection E as <-. split; [eexists _, _; split; reflexivity|].
    intros [|fuel] rest Hlen _; [simpl in Hlen; lia|].
    destruct items as [|kv items].
    + simpl in Eparts. injection Eparts as <-. reflexivity.
    + destruct (object_items_encode_as (kv :: items) IH parts Eparts ltac:(congruence))
        as (body & Ejoin & Hscan).
      simpl (chars ", ") in *. rewrite Ejoin in Hlen |- *.
      simpl in Hlen. rewrite length_app in Hlen. simpl in Hlen.
      change (normalize (PDict (kv :: items)))
        with (PDict (dict_of_pairs
                (map (fun kv => (coerced_key (fst kv), normalize (snd kv))) (kv :: items)))).
      remember (map (fun kv => (coerced_key (fst kv), normalize (snd kv))) (kv :: items))
        as pairs eqn:Epairs.
      rewrite <- !app_comm_cons, <- app_assoc. simpl.
      rewrite Hscan by lia. reflexivity.
Qed.

(** Whatever [json.dumps] accepts, [json.loads] reads back normalized. *)
Lemma json_loads_dumps_normalize x payload :
  json_dumps x = Ok payload -> json_loads (PStr payload) = Return (normalize x).
Proof.
  unfold json_dumps. destruct (encode x) as [cs|e] eqn:E; simpl; intros H; [|discriminate H].
  injection H as <-. destruct (encode_reads_back_as x cs E) as [Hstart Hscan].
  unfold loads_text, decode. rewrite chars_text.
  rewrite <- (app_nil_r cs) at 2. rewrite skip_ws_starts by exact Hstart.
  rewrite Hscan; [reflexivity | unfold fuel_for; lia | reflexivity].
Qed.








Lemma normalize_of_safe x : json_safe x = true -> normalize x = x.
Proof.
  induction x as [ | b | n | s | b | items IH | items IH ] using pyval_ind;
    intros Hsafe; try reflexivity.
  - simpl in Hsafe |- *. f_equal.
    induction IH as [|v items Hv _ IHitems]; [reflexivity|].
    simpl in Hsafe |- *. apply andb_true_iff in Hsafe as [Hsv Hsi].
    rewrite (Hv Hsv), (IHitems Hsi). reflexivity.
  - simpl in Hsafe. apply andb_true_iff in Hsafe as [Hitems Hdist].
    cbn [normalize]. f_equal.
    rewrite <- (dict_of_pairs_items items Hitems Hdist) at 2. f_equal.
    clear Hdist. induction IH as [|[k v] items [_ Hv] _ IHitems]; [reflexivity|].
    simpl in Hitems, Hv |- *. apply andb_true_iff in Hitems as [Hkv Hrest].
    apply andb_true_iff in Hkv as [Hk Hsv].
    rewrite (Hv Hsv), (IHitems Hrest). destruct k; try discriminate Hk. reflexivity.
Qed.



(** ** What a hit serves *)

Section Served.
Context {Store Env : Type}.
Variable REDIS : string -> Cache Store.
Variables (ttl : Z) (namespace : string) (func : producer Env).
Variables (args : list pyval) (kwargs : list (string * pyval)).

(** C2.  When [cache.get] answers with a truthy value for the derived key,
    a hit, the wrapped function is not invoked, nothing is written, the
    world is left as it was, and the call comes to what deserializing the
    cached value comes to.  For the text [json.dumps] wrote for a value,
    as every entry of the decorator's own is, the call returns that value
    with its dictionary keys as texts, which is the value itself when it
    is one JSON has a shape for.  For a text that is no JSON document the
    call does not return: it raises the decoder's error. *)
Theorem cache_hit_bypasses_producer id payload w :
  key_identifier args kwargs = Return id ->
  cache_get (REDIS namespace) (cache_key_of namespace id) (fst w) = Ok payload ->
  py_truthy payload = true ->
  exists o t,
    wrapper REDIS ttl namespace func args kwargs w = (o, w, t) /\
    t = [CacheGet (cache_key_of namespace id); hit_line (cache_key_of namespace id)] /\
    invocations t = 0%nat /\ writes t = 0%nat /\
    o = json_loads payload /\
    (forall x written, payload = PStr written -> json_dumps x = Ok written ->
       o = Return (normalize x)) /\
    (forall x written, payload = PStr written -> json_dumps x = Ok written ->
       json_safe x = true -> o = Return x) /\
    (forall cached, payload = PStr cached ->
       decode (fuel_for (chars cached)) (chars cached) = Malformed ->
       o = Raise JSONDecodeError).
Proof.
  intros Hid Hget Hhit. exists (json_loads payload). eexists.
  split; [apply wrapper_hit; eassumption|].
  split; [reflexivity|]. split; [count|]. split; [count|]. split; [reflexivity|].
  split; [|split].
  - intros x written -> Hdumps. exact (json_loads_dumps_normalize x written Hdumps).
  - intros x written -> Hdumps Hsafe.
    rewrite (json_loads_dumps_normalize x written Hdumps).
    rewrite (normalize_of_safe x Hsafe). reflexivity.
  - intros cached -> Hbad. simpl. unfold loads_text. rewrite Hbad. reflexivity.
Qed.

End Served.

(** ** Which calls share an entry *)

Lemma append_inv_head s a b : s +:+ a = s +:+ b -> a = b.
Proof.
  induction s as [|c s IH]; simpl; intros H; [exact H|].
  injection H as H. exact (IH H).
Qed.

(** X10.  Under one namespace two identifiers name the same entry exactly
    when [str] gives the same text for both, as for the integer [1] and the
    text ['1']. *)
Theorem identifiers_share_a_key_iff_same_str namespace a b :
  cache_key_of namespace a = cache_key_of namespace b <-> py_str a = py_str b.
Proof.
  unfold cache_key_of. split.
  - intros H. apply append_inv_head in H. apply append_inv_head in H. exact H.
  - intros ->. reflexivity.
Qed.

(** X11.  With integers for identifiers, as the route has them, two calls
    name the same entry exactly when they agree on the namespace and on the
    integer. *)
Theorem int_identifiers_share_a_key_iff_equal ns1 ns2 n1 n2 :
  cache_key_of ns1 (PInt n1) = cache_key_of ns2 (PInt n2) <-> ns1 = ns2 /\ n1 = n2.
Proof.
  split; [apply int_keys_never_collide|]. intros [-> ->]. reflexivity.
Qed.

(** X12.  The key names the namespace and the identifier and nothing else:
    an entry written for one function is served to a call of any other
    function decorated with the same namespace, whatever its time to live,
    when the identifiers have the same [str].  The other function is not
    called. *)
Theorem entry_is_shared_across_functions
    {Store Env1 Env2 : Type} (REDIS : string -> Cache Store) namespace
    ttl1 (func1 : producer Env1) args1 kwargs1 id1
    ttl2 (func2 : producer Env2) args2 kwargs2 id2
    cached store store1 store2 env env1 env2 response payload t :
  key_identifier args1 kwargs1 = Return id1 ->
  key_identifier args2 kwargs2 = Return id2 ->
  py_str id1 = py_str id2 ->
  cache_get (REDIS namespace) (cache_key_of namespace id1) store = Ok cached ->
  py_truthy cached = false ->
  func1 args1 kwargs1 env = (Return response, env1, t) ->
  json_dumps response = Ok payload ->
  cache_set (REDIS namespace) (cache_key_of namespace id1) payload ttl1 store = (Ok tt, store1) ->
  cache_get (REDIS namespace) (cache_key_of namespace id1) store2 = Ok (PStr payload) ->
  exists t1 t2,
    wrapper REDIS ttl1 namespace func1 args1 kwargs1 (store, env) =
      (Return response, (store1, env1), t1) /\
    wrapper REDIS ttl2 namespace func2 args2 kwargs2 (store2, env2) =
      (Return (normalize response), (store2, env2), t2) /\
    invocations t2 = 0%nat /\ writes t2 = 0%nat.
Proof.
  intros Hid1 Hid2 Hstr Hget Hmiss Hfunc Hdumps Hset Hget2.
  pose proof (wrapper_miss REDIS ttl1 namespace func1 args1 kwargs1 id1 cached store env
                Hid1 Hget Hmiss) as H1.
  simpl in H1. rewrite Hfunc, Hdumps, Hset in H1.
  assert (Hkey : cache_key_of namespace id1 = cache_key_of namespace id2).
  { unfold cache_key_of. rewrite Hstr. reflexivity. }
  rewrite Hkey in Hget2.
  pose proof (wrapper_hit REDIS ttl2 namespace func2 args2 kwargs2 id2 (PStr payload)
                (store2, env2) Hid2 Hget2 (json_dumps_truthy _ _ Hdumps)) as H2.
  rewrite (json_loads_dumps_normalize response payload Hdumps) in H2.
  eexists _, _. split; [exact H1|]. split; [exact H2|]. split; count.
Qed.

(** ** [get_user_details] *)

(** Which calls fit the one parameter. *)
Lemma bind_user_id_ok_iff args kwargs v :
  bind_user_id args kwargs = Ok v <->
  (args = [v] /\ kwargs = []) \/ (args = [] /\ kwargs = [("user_id", v)]).
Proof.
  split.
  - unfold bind_user_id.
    destruct args as [|a [|a2 args]], kwargs as [|[k w] [|[k2 w2] kwargs]]; simpl;
      try destruct (String.eqb_spec k "user_id") as [->|Hk]; simpl;
      try destruct (String.eqb_spec k2 "user_id") as [->|Hk2]; simpl;
      intros H; try discriminate H;
      try (injection H as <-; tauto).
    all: repeat match type of H with
                | context [match ?x with _ => _ end] => destruct x; simpl in H
                end; discriminate H.
  - intros [[-> ->] | [-> ->]]; reflexivity.
Qed.

(** X13.  [get_user_details] binds its parameter from exactly one argument,
    given by position or under the name [user_id]. *)
Theorem get_user_details_takes_one_argument args kwargs v :
  bind_user_id args kwargs = Ok v <->
  (args = [v] /\ kwargs = []) \/ (args = [] /\ kwargs = [("user_id", v)]).
Proof. exact (bind_user_id_ok_iff args kwargs v). Qed.

Lemma users_db_get v found :
  py_dict_get users_db v = Ok found ->
  found = None \/
  exists id name email age,
    found = Some (user id name email age) /\
    key_eqb (PInt id) v = true /\ In (PInt id, user id name email age) users_db.
Proof.
  intros Hget.
  assert (Hfound : found = snd <$> find (fun kv => key_eqb (fst kv) v) users_db).
  { unfold py_dict_get in Hget.
    destruct v; try discriminate Hget; injection Hget as <-; reflexivity. }
  rewrite Hfound. clear Hget Hfound. unfold users_db. cbn [find fst snd].
  destruct (key_eqb (PInt 1) v) eqn:E1;
    [right; eexists _, _, _, _; split; [reflexivity|]; split; [exact E1|]; simpl; tauto|].
  destruct (key_eqb (PInt 2) v) eqn:E2;
    [right; eexists _, _, _, _; split; [reflexivity|]; split; [exact E2|]; simpl; tauto|].
  destruct (key_eqb (PInt 3) v) eqn:E3;
    [right; eexists _, _, _, _; split; [reflexivity|]; split; [exact E3|]; simpl; tauto|].
  left. reflexivity.
Qed.

(** X14.  Whatever [get_user_details] returns is a record of the table, and
    the record's [id] equals the identifier the call was made with.  The
    call has then written its line and slept one second, and has left its
    surroundings as they were. *)
Theorem returned_record_is_the_one_asked_for args kwargs env response env1 t :
  get_user_details args kwargs env = (Return response, env1, t) ->
  exists v id name email age,
    bind_user_id args kwargs = Ok v /\
    response = user id name email age /\
    key_eqb (PInt id) v = true /\
    In (PInt id, response) users_db /\
    env1 = env /\ t = slow_lookup.
Proof.
  unfold get_user_details.
  destruct (bind_user_id args kwargs) as [v|e]; [|discriminate].
  destruct (negb (asyncio_bound env)); [discriminate|].
  destruct (py_dict_get users_db v) as [found|e] eqn:Hget; [|discriminate].
  destruct (users_db_get v found Hget) as [->|(id & name & email & age & -> & Heq & Hin)].
  - discriminate.
  - simpl. intros H. injection H as <- <- <-.
    exists v, id, name, email, age. repeat split; assumption.
Qed.

(** With [asyncio] bound, an integer is looked up in the table. *)
Lemma get_user_details_int args kwargs n env :
  bind_user_id args kwargs = Ok (PInt n) ->
  asyncio_bound env = true ->
  get_user_details args kwargs env =
    ((if (1 =? n)%Z then Return (user 1 "Alice" "alice@example.com" 25)
      else if (2 =? n)%Z then Return (user 2 "Bob" "bob@example.com" 30)
      else if (3 =? n)%Z then Return (user 3 "Charlie" "charlie@example.com" 22)
      else Raise (HTTPException 404 "User not found")), env, slow_lookup).
Proof.
  intros Hbind Hbound. unfold get_user_details. rewrite Hbind, Hbound.
  unfold py_dict_get, users_db. cbn [negb find fst snd key_eqb].
  destruct (1 =? n)%Z; [reflexivity|]. destruct (2 =? n)%Z; [reflexivity|].
  destruct (3 =? n)%Z; reflexivity.
Qed.

(** Without it, every call that fits the parameter ends at the sleep. *)
Lemma get_user_details_unbound args kwargs v env :
  bind_user_id args kwargs = Ok v ->
  asyncio_bound env = false ->
  get_user_details args kwargs env = (Raise asyncio_undefined, env, first_line).
Proof.
  intros Hbind Hbound. unfold get_user_details. rewrite Hbind, Hbound. reflexivity.
Qed.

(** X15.  Asked for an integer, by position or by name with the same
    result, [get_user_details] writes its line and looks [asyncio] up.
    Where the name is bound, as when [main.py] is run as a script, it sleeps
    and then returns a record when the integer is 1, 2 or 3 and raises
    [HTTPException(404, "User not found")] for every other integer, zero and
    the negative ones among them.  Where the name is not bound, as when the
    module is imported, it raises a [NameError] for every integer, and
    neither sleeps nor looks the user up. *)
Theorem get_user_details_on_integers n env :
  exists o t,
    get_user_details [PInt n] [] env = (o, env, t) /\
    get_user_details [] [("user_id", PInt n)] env = (o, env, t) /\
    if asyncio_bound env then
      t = slow_lookup /\
      (o = Raise (HTTPException 404 "User not found") <-> (n < 1 \/ 3 < n)%Z) /\
      ((exists name email age, o = Return (user n name email age)) <-> (1 <= n <= 3)%Z)
    else
      t = first_line /\ o = Raise asyncio_undefined.
Proof.
  destruct (asyncio_bound env) eqn:Hbound.
  - rewrite (get_user_details_int [PInt n] [] n env eq_refl Hbound),
      (get_user_details_int [] [("user_id", PInt n)] n env eq_refl Hbound).
    destruct (Z.eqb_spec 1 n) as [<-|H1].
    { eexists _, _. split; [reflexivity|]. split; [reflexivity|]. split; [reflexivity|]. split.
      - split; [discriminate | lia].
      - split; [lia|]. intros _. eexists _, _, _. reflexivity. }
    destruct (Z.eqb_spec 2 n) as [<-|H2].
    { eexists _, _. split; [reflexivity|]. split; [reflexivity|]. split; [reflexivity|]. split.
      - split; [discriminate | lia].
      - split; [lia|]. intros _. eexists _, _, _. reflexivity. }
    destruct (Z.eqb_spec 3 n) as [<-|H3].
    { eexists _, _. split; [reflexivity|]. split; [reflexivity|]. split; [reflexivity|]. split.
      - split; [discriminate | lia].
      - split; [lia|]. intros _. eexists _, _, _. reflexivity. }
    eexists _, _. split; [reflexivity|]. split; [reflexivity|]. split; [reflexivity|]. split.
    + split; [lia | reflexivity].
    + split; [intros (name & email & age & H); discriminate H | lia].
  - rewrite (get_user_details_unbound [PInt n] [] (PInt n) env eq_refl Hbound),
      (get_user_details_unbound [] [("user_id", PInt n)] (PInt n) env eq_refl Hbound).
    eexists _, _. repeat split.
Qed.

(** How [get_user_details] can end. *)
Lemma get_user_details_ends args kwargs env :
  match get_user_details args kwargs env with
  | (Return response, env1, t) =>
      env1 = env /\ t = slow_lookup /\ asyncio_bound env = true
  | (Raise e, env1, t) =>
      env1 = env /\
      ((e = HTTPException 404 "User not found" /\ t = slow_lookup /\
        asyncio_bound env = true)
       \/ (e = asyncio_undefined /\ t = first_line /\ asyncio_bound env = false /\
           exists v, bind_user_id args kwargs = Ok v)
       \/ (exists msg, e = PyError (PyErr TypeError msg) /\
             ((bind_user_id args kwargs = Err (PyErr TypeError msg) /\ t = [])
              \/ (exists v, bind_user_id args kwargs = Ok v /\
                    py_dict_get users_db v = Err (PyErr TypeError msg) /\
                    t = slow_lookup /\ asyncio_bound env = true))))
  | (Unmodelled, _, _) => False
  end.
Proof.
  unfold get_user_details.
  destruct (bind_user_id args kwargs) as [v|e] eqn:Hbind.
  - destruct (asyncio_bound env) eqn:Hbound; cbn [negb].
    + destruct (py_dict_get users_db v) as [found|e] eqn:Hget.
      * destruct (negb (py_truthy (default PNone found))).
        -- split; [reflexivity|]. left. repeat split.
        -- repeat split.
      * split; [reflexivity|]. right. right.
        assert (Hclass : exists msg, e = PyErr TypeError msg).
        { unfold py_dict_get in Hget. destruct v; try discriminate Hget;
            injection Hget as <-; eexists; reflexivity. }
        destruct Hclass as [msg ->]. exists msg. split; [reflexivity|]. right.
        exists v. repeat split; assumption.
    + split; [reflexivity|]. right. left. repeat split. exists v. reflexivity.
  - split; [reflexivity|]. right. right.
    assert (Hclass : exists msg, e = PyErr TypeError msg).
    { unfold bind_user_id in Hbind.
      destruct (bind_keywords (head args) kwargs) as [bound|e'] eqn:Hkw.
      - simpl in Hbind. destruct args as [|a [|a2 args]], bound; try discriminate Hbind;
          injection Hbind as <-; eexists; reflexivity.
      - simpl in Hbind. injection Hbind as ->. clear - Hkw.
        revert Hkw. generalize (head args). induction kwargs as [|[k w] kwargs IH];
          intros positional Hkw; simpl in Hkw; [discriminate Hkw|].
        destruct (String.eqb k "user_id").
        + destruct positional; [injection Hkw as <-; eexists; reflexivity|].
          exact (IH _ Hkw).
        + injection Hkw as <-. eexists. reflexivity. }
    destruct Hclass as [msg ->]. exists msg. split; [reflexivity|]. left.
    split; reflexivity.
Qed.

(** X16.  [get_user_details] returns only where [asyncio] is bound, and
    fails in three ways only, changing nothing when it fails: with
    [HTTPException(404, "User not found")] after its line and its sleep;
    with a [NameError] after its line, where [asyncio] is not bound, for
    every call that fits its parameter; or with a [TypeError], raised before
    anything happened when the arguments do not fit the parameter, and after
    the line and the sleep when the identifier cannot be hashed. *)
Theorem get_user_details_failure_modes args kwargs env :
  match get_user_details args kwargs env with
  | (Return response, env1, t) =>
      env1 = env /\ t = slow_lookup /\ asyncio_bound env = true
  | (Raise e, env1, t) =>
      env1 = env /\
      ((e = HTTPException 404 "User not found" /\ t = slow_lookup /\
        asyncio_bound env = true)
       \/ (e = asyncio_undefined /\ t = first_line /\ asyncio_bound env = false /\
           exists v, bind_user_id args kwargs = Ok v)
       \/ (exists msg, e = PyError (PyErr TypeError msg) /\
             ((bind_user_id args kwargs = Err (PyErr TypeError msg) /\ t = [])
              \/ (exists v, bind_user_id args kwargs = Ok v /\
                    py_dict_get users_db v = Err (PyErr TypeError msg) /\
                    t = slow_lookup /\ asyncio_bound env = true))))
  | (Unmodelled, _, _) => False
  end.
Proof. exact (get_user_details_ends args kwargs env). Qed.

(** ** The endpoint: the decorator over [get_user_details] *)

Section Endpoint.
Context {Store : Type}.
Variable REDIS : string -> Cache Store.

(** X17.  A request for an integer that is not in the table never changes
    the cache, whatever the cache holds and however the module was loaded:
    no failure is remembered.  For zero the keyword is falsy, so the call
    fails with an [IndexError] before the cache is asked.  For any other
    such integer that misses the cache, the lookup is made and the call
    fails with the lookup's own exception, the 404 where [asyncio] is
    bound and the [NameError] where it is not; the same request pays for
    the lookup again. *)
Theorem unknown_user_is_never_cached n store env :
  (n < 1 \/ 3 < n)%Z ->
  exists o t,
    users_endpoint REDIS [] [("user_id", PInt n)] (store, env) = (o, (store, env), t) /\
    writes t = 0%nat /\
    (n = 0%Z ->
       o = Raise (PyError (PyErr IndexError "tuple index out of range")) /\ t = []) /\
    (forall cached,
       n <> 0%Z ->
       cache_get (REDIS "users") (cache_key_of "users" (PInt n)) store = Ok cached ->
       py_truthy cached = false ->
       o = Raise (if asyncio_bound env then HTTPException 404 "User not found"
                  else asyncio_undefined) /\
       invocations t = 1%nat /\
       steps t = [CacheGet (cache_key_of "users" (PInt n));
                  Invoke [] [("user_id", PInt n)]]).
Proof.
  intros Hn. unfold users_endpoint, cache_response. cbn [default].
  destruct (Z.eqb_spec n 0) as [->|Hn0].
  { eexists _, _.
    split; [exact (wrapper_no_identifier REDIS 120 "users" get_user_details
                     [] [("user_id", PInt 0)]
                     (PyError (PyErr IndexError "tuple index out of range"))
                     (store, env) eq_refl)|].
    split; [reflexivity|].
    split; [intros _; split; reflexivity|]. intros cached Hne. contradiction. }
  assert (Hid : key_identifier [] [("user_id", PInt n)] = Return (PInt n)).
  { unfold key_identifier. simpl. destruct (Z.eqb_spec n 0) as [->|_];
      [contradiction | reflexivity]. }
  assert (Hfunc : get_user_details [] [("user_id", PInt n)] env =
                    (Raise (if asyncio_bound env then HTTPException 404 "User not found"
                            else asyncio_undefined), env,
                     if asyncio_bound env then slow_lookup else first_line)).
  { destruct (asyncio_bound env) eqn:Hbound.
    - rewrite (get_user_details_int [] [("user_id", PInt n)] n env eq_refl Hbound).
      destruct (Z.eqb_spec 1 n); [lia|]. destruct (Z.eqb_spec 2 n); [lia|].
      destruct (Z.eqb_spec 3 n); [lia|]. reflexivity.
    - apply (get_user_details_unbound [] [("user_id", PInt n)] (PInt n) env eq_refl Hbound). }
  destruct (cache_get (REDIS "users") (cache_key_of "users" (PInt n)) store)
    as [cached|e] eqn:Hget.
  - destruct (py_truthy cached) eqn:Htruth.
    + eexists _, _.
      split; [exact (wrapper_hit REDIS 120 "users" get_user_details
                       [] [("user_id", PInt n)] (PInt n) cached (store, env)
                       Hid Hget Htruth)|].
      split; [reflexivity|].
      split; [intros H0; contradiction|].
      intros cached' _ Hget' Hmiss. injection Hget' as <-. congruence.
    + pose proof (wrapper_miss REDIS 120 "users" get_user_details
                    [] [("user_id", PInt n)] (PInt n) cached store env Hid Hget Htruth)
        as Hrun.
      cbv zeta in Hrun. rewrite Hfunc in Hrun.
      eexists _, _. split; [exact Hrun|].
      split; [destruct (asyncio_bound env); reflexivity|].
      split; [intros H0; contradiction|].
      intros cached' _ _ _. split; [reflexivity|].
      destruct (asyncio_bound env); split; reflexivity.
  - eexists _, _.
    split; [exact (wrapper_read_error REDIS 120 "users" get_user_details
                     [] [("user_id", PInt n)] (PInt n) e (store, env) Hid Hget)|].
    split; [reflexivity|].
    split; [intros H0; contradiction|].
    intros cached _ Hget'. discriminate Hget'.
Qed.

(** X18.  Whatever the endpoint asks the cache to store is the JSON text of
    a record of the table, stored for 120 seconds under the key of the
    very identifier the record was looked up with: no entry is written
    under the key of another user. *)
Theorem endpoint_entry_is_the_record_of_its_key args kwargs store env k payload ttl' :
  In (CacheSet k payload ttl') (snd (users_endpoint REDIS args kwargs (store, env))) ->
  exists v id name email age,
    key_identifier args kwargs = Return v /\
    bind_user_id args kwargs = Ok v /\
    k = cache_key_of "users" v /\ ttl' = 120%Z /\
    key_eqb (PInt id) v = true /\
    In (PInt id, user id name email age) users_db /\
    json_dumps (user id name email age) = Ok payload.
Proof.
  unfold users_endpoint, cache_response. simpl. intros H.
  destruct (wrapper_set_event REDIS 120 "users" get_user_details args kwargs
              store env k payload ttl' H)
    as (v & response & env1 & t & Hid & -> & -> & Hfunc & Hdumps).
  unfold get_user_details in Hfunc.
  destruct (bind_user_id args kwargs) as [u|e] eqn:Hbind; [|discriminate Hfunc].
  destruct (negb (asyncio_bound env)); [discriminate Hfunc|].
  destruct (py_dict_get users_db u) as [found|e] eqn:Hget; [|discriminate Hfunc].
  destruct (users_db_get u found Hget) as [->|(id & name & email & age & -> & Heq & Hin)];
    [discriminate Hfunc|].
  simpl in Hfunc. injection Hfunc as <- <- <-.
  assert (Huv : u = v).
  { apply bind_user_id_ok_iff in Hbind as [[-> ->] | [-> ->]];
      unfold key_identifier in Hid; simpl in Hid.
    - injection Hid as <-. reflexivity.
    - destruct (py_truthy u); [injection Hid as <-; reflexivity | discriminate Hid]. }
  subst u. exists v, id, name, email, age. repeat split; assumption.
Qed.

(** X19.  The endpoint answers with status 500 only when the cache refused
    the write: the records of the table always serialize, and neither the
    identifier, the read, a cached text nor the lookup can fail that way.
    The detail is the cache's own message after the fixed words, and the
    lookup had been made. *)
Theorem endpoint_500_comes_from_the_write args kwargs store env status detail w t :
  users_endpoint REDIS args kwargs (store, env) = (Raise (HTTPException status detail), w, t) ->
  status = 404%Z /\ detail = "User not found" /\ w = (store, env) /\ writes t = 0%nat
  \/ exists id response payload e store1,
       key_identifier args kwargs = Return id /\
       get_user_details args kwargs env = (Return response, env, slow_lookup) /\
       json_dumps response = Ok payload /\
       cache_set (REDIS "users") (cache_key_of "users" id) payload 120 store = (Err e, store1) /\
       is_Exception (err_class e) = true /\
       status = 500%Z /\ detail = "Error caching data: " +:+ err_str e /\
       w = (store1, env) /\ invocations t = 1%nat /\ writes t = 1%nat.
Proof.
  unfold users_endpoint, cache_response. simpl. intros Hrun.
  destruct (wrapper_cases REDIS 120 "users" get_user_details args kwargs store env)
    as [(e & Hid & Hcall) | (id & Hid & Hcases)].
  { rewrite Hcall in Hrun. unfold key_identifier in Hid.
    destruct (py_truthy _); [discriminate Hid|]. destruct args; [|discriminate Hid].
    injection Hid as <-. discriminate Hrun. }
  cbv zeta in Hcases.
  destruct Hcases as [(e & _ & Hcall) | [(cached & _ & _ & Hcall) |
                      (cached & o & env1 & t' & _ & _ & Hfunc & Hcall)]].
  - rewrite Hcall in Hrun. discriminate Hrun.
  - rewrite Hcall in Hrun. exfalso. clear - Hrun.
    injection Hrun as Hloads _ _. unfold json_loads, loads_text in Hloads.
    repeat match type of Hloads with
           | context [match ?x with _ => _ end] => destruct x
           | context [if ?x then _ else _] => destruct x
           end; discriminate Hloads.
  - cbv zeta in Hcall.
    pose proof (get_user_details_ends args kwargs env) as Hmodes.
    rewrite Hfunc in Hmodes. destruct o as [response|e|]; [| |contradiction].
    + destruct Hmodes as (-> & -> & _).
      destruct (json_loads_dumps response
                  (get_user_details_json_safe _ _ _ _ _ _ Hfunc)) as (payload & Hdumps & _).
      rewrite Hdumps in Hcall.
      destruct (cache_set (REDIS "users") (cache_key_of "users" id) payload 120 store)
        as [[[]|e] store1] eqn:Hset; rewrite Hcall in Hrun; [discriminate Hrun|].
      unfold surfaced in Hrun. destruct (is_Exception (err_class e)) eqn:Hexc;
        [|discriminate Hrun].
      injection Hrun as <- <- <- <-. right.
      exists id, response, payload, e, store1.
      repeat (split; [first [assumption | reflexivity | count]|]). count.
    + rewrite Hcall in Hrun. injection Hrun as -> <- <-.
      destruct Hmodes as [-> [(Hexn & -> & _) | [(Hexn & _) | (msg & Hexn & _)]]];
        [|discriminate Hexn|discriminate Hexn].
      injection Hexn as -> ->. left. repeat split.
Qed.
End Endpoint.

(** ** The further properties at concrete calls *)

Lemma read_failure_fails_the_call_witness :
  exists t,
    get_users 1 (outage_on_read Redis.empty, as_script) =
      (Raise (PyError Redis.connection_refused), (outage_on_read Redis.empty, as_script), t) /\
    invocations t = 0%nat /\ writes t = 0%nat.
Proof.
  apply (read_failure_fails_the_call Redis.REDIS 120 "users" get_user_details
           [] [("user_id", PInt 1)] (PInt 1) Redis.connection_refused
           (outage_on_read Redis.empty) as_script);
    reflexivity.
Defined.

Lemma unserializable_result_is_not_written_witness :
  exists t1,
    wrapper Redis.REDIS 120 "users" raw_bytes [PInt 1] [] (Redis.empty, tt) =
      (Raise (http_500 (not_serializable "bytes")), (Redis.empty, tt), t1) /\
    invocations t1 = 1%nat /\ writes t1 = 0%nat.
Proof.
  apply (unserializable_result_is_not_written Redis.REDIS 120 "users" raw_bytes
           [PInt 1] [] (PInt 1) PNone Redis.empty tt tt (PBytes "x") []
           (not_serializable "bytes"));
    reflexivity.
Defined.

Lemma base_exception_passes_through_witness :
  exists t1,
    get_users 1 (cancelled_on_write Redis.empty, as_script) =
      (Raise (PyError (PyErr CancelledError "")), (cancelled_on_write Redis.empty, as_script), t1).
Proof.
  apply (base_exception_passes_through Redis.REDIS 120 "users" get_user_details
           [] [("user_id", PInt 1)] (PInt 1) PNone (cancelled_on_write Redis.empty)
           (cancelled_on_write Redis.empty) as_script as_script alice (payload_of alice) slow_lookup
           (PyErr CancelledError ""));
    reflexivity.
Defined.

Lemma stored_value_is_a_json_text_witness :
  120%Z = 120%Z /\ py_truthy (PStr (payload_of alice)) = true /\
  exists response env1 t,
    get_user_details [] [("user_id", PInt 1)] as_script = (Return response, env1, t) /\
    json_dumps response = Ok (payload_of alice).
Proof.
  apply (stored_value_is_a_json_text Redis.REDIS 120 "users" get_user_details
           [] [("user_id", PInt 1)] Redis.empty as_script "users:user:1" (payload_of alice) 120).
  vm_compute. tauto.
Defined.

Lemma truthy_keyword_decides_the_key_witness :
  key_identifier [PInt 1] [("user_id", PInt 2)] = Return (PInt 2) /\
  exists o w1 t,
    wrapper Redis.REDIS 60 "main" (constant PNone) [PInt 1] [("user_id", PInt 2)]
      (Redis.empty, tt) = (o, w1, CacheGet (cache_key_of "main" (PInt 2)) :: t).
Proof.
  apply (truthy_keyword_decides_the_key Redis.REDIS 60 "main" (constant PNone)
           [PInt 1] [("user_id", PInt 2)] (PInt 2) (Redis.empty, tt));
    reflexivity.
Defined.



Lemma entry_is_shared_across_functions_witness :
  exists t1 t2,
    wrapper Redis.REDIS 120 "users" get_user_details [] [("user_id", PInt 1)]
      (Redis.empty, as_script) = (Return alice, (alice_cached, as_script), t1) /\
    wrapper Redis.REDIS 5 "users" (constant PNone) [PStr "1"] [] (alice_cached, tt) =
      (Return (normalize alice), (alice_cached, tt), t2) /\
    invocations t2 = 0%nat /\ writes t2 = 0%nat.
Proof.
  apply (entry_is_shared_across_functions Redis.REDIS "users"
           120 get_user_details [] [("user_id", PInt 1)] (PInt 1)
           5 (constant PNone) [PStr "1"] [] (PStr "1")
           PNone Redis.empty alice_cached alice_cached as_script as_script tt alice (payload_of alice)
           slow_lookup);
    reflexivity.
Defined.

Lemma returned_record_is_the_one_asked_for_witness :
  exists v id name email age,
    bind_user_id [PInt 2] [] = Ok v /\
    user 2 "Bob" "bob@example.com" 30 = user id name email age /\
    key_eqb (PInt id) v = true /\
    In (PInt id, user 2 "Bob" "bob@example.com" 30) users_db /\
    as_script = as_script /\ slow_lookup = slow_lookup.
Proof.
  apply (returned_record_is_the_one_asked_for [PInt 2] [] as_script
           (user 2 "Bob" "bob@example.com" 30) as_script slow_lookup).
  reflexivity.
Defined.

Lemma endpoint_500_comes_from_the_write_witness :
  500%Z = 404%Z /\ "Error caching data: " +:+ err_str Redis.connection_refused = "User not found" /\
  (Redis.outage_on_write Redis.empty, as_script) = (Redis.outage_on_write Redis.empty, as_script) /\
  writes (snd (get_users 1 (Redis.outage_on_write Redis.empty, as_script))) = 0%nat
  \/ exists id response payload e store1,
       key_identifier [] [("user_id", PInt 1)] = Return id /\
       get_user_details [] [("user_id", PInt 1)] as_script = (Return response, as_script, slow_lookup) /\
       json_dumps response = Ok payload /\
       cache_set (Redis.REDIS "users") (cache_key_of "users" id) payload 120
         (Redis.outage_on_write Redis.empty) = (Err e, store1) /\
       is_Exception (err_class e) = true /\
       500%Z = 500%Z /\
       "Error caching data: " +:+ err_str Redis.connection_refused =
         "Error caching data: " +:+ err_str e /\
       (Redis.outage_on_write Redis.empty, as_script) = (store1, as_script) /\
       invocations (snd (get_users 1 (Redis.outage_on_write Redis.empty, as_script))) = 1%nat /\
       writes (snd (get_users 1 (Redis.outage_on_write Redis.empty, as_script))) = 1%nat.
Proof.
  apply (endpoint_500_comes_from_the_write Redis.REDIS [] [("user_id", PInt 1)]
           (Redis.outage_on_write Redis.empty) as_script 500
           ("Error caching data: " +:+ err_str Redis.connection_refused)
           (Redis.outage_on_write Redis.empty, as_script)
           (snd (get_users 1 (Redis.outage_on_write Redis.empty, as_script)))).
  reflexivity.
Defined.

Lemma endpoint_entry_is_the_record_of_its_key_witness :
  exists v id name email age,
    key_identifier [] [("user_id", PInt 1)] = Return v /\
    bind_user_id [] [("user_id", PInt 1)] = Ok v /\
    "users:user:1" = cache_key_of "users" v /\ 120%Z = 120%Z /\
    key_eqb (PInt id) v = true /\
    In (PInt id, user id name email age) users_db /\
    json_dumps (user id name email age) = Ok (payload_of alice).
Proof.
  apply (endpoint_entry_is_the_record_of_its_key Redis.REDIS [] [("user_id", PInt 1)]
           Redis.empty as_script "users:user:1" (payload_of alice) 120).
  vm_compute. tauto.
Defined.

Lemma unknown_user_is_never_cached_witness :
  exists o t,
    users_endpoint Redis.REDIS [] [("user_id", PInt 7)] (Redis.empty, as_module) =
      (o, (Redis.empty, as_module), t) /\
    writes t = 0%nat /\
    (7%Z = 0%Z ->
       o = Raise (PyError (PyErr IndexError "tuple index out of range")) /\ t = []) /\
    (forall cached,
       7%Z <> 0%Z ->
       cache_get (Redis.REDIS "users") (cache_key_of "users" (PInt 7)) Redis.empty = Ok cached ->
       py_truthy cached = false ->
       o = Raise (if asyncio_bound as_module then HTTPException 404 "User not found"
                  else asyncio_undefined) /\
       invocations t = 1%nat /\
       steps t = [CacheGet (cache_key_of "users" (PInt 7)); Invoke [] [("user_id", PInt 7)]]).
Proof.
  apply (unknown_user_is_never_cached Redis.REDIS 7 Redis.empty as_module). lia.
Defined.

Lemma cache_hit_bypasses_producer_witness :
  exists o t,
    get_users 1 (alice_cached, as_script) = (o, (alice_cached, as_script), t) /\
    t = [CacheGet "users:user:1"; hit_line "users:user:1"] /\
    invocations t = 0%nat /\ writes t = 0%nat /\
    o = Return alice /\
    (forall x written, PStr (payload_of alice) = PStr written -> json_dumps x = Ok written ->
       o = Return (normalize x)) /\
    (forall x written, PStr (payload_of alice) = PStr written -> json_dumps x = Ok written ->
       json_safe x = true -> o = Return x) /\
    (forall cached, PStr (payload_of alice) = PStr cached ->
       decode (fuel_for (chars cached)) (chars cached) = Malformed ->
       o = Raise JSONDecodeError).
Proof.
  apply (cache_hit_bypasses_producer Redis.REDIS 120 "users" get_user_details
           [] [("user_id", PInt 1)] (PInt 1) (PStr (payload_of alice))
           (alice_cached, as_script));
    reflexivity.
Defined.

(** C2, as stated, fails at a hit on a text that is no JSON document: the
    call does not return a value, it raises the decoder's error. *)
Lemma hit_on_broken_entry_does_not_return :
  key_identifier [] [("user_id", PInt 1)] = Return (PInt 1) /\
  cache_get (Redis.REDIS "users") (cache_key_of "users" (PInt 1)) broken_cached = Ok (PStr "{") /\
  py_truthy (PStr "{") = true /\
  get_users 1 (broken_cached, as_script) =
    (Raise JSONDecodeError, (broken_cached, as_script),
     [CacheGet "users:user:1"; hit_line "users:user:1"]) /\
  ~ (exists v, fst (fst (get_users 1 (broken_cached, as_script))) = Return v).
Proof.
  repeat split. intros (v & H). discriminate H.
Qed.

